(** * The Qdrant vector-store adapter of langchaingo

    A shallow embedding of [vectorstores/qdrant] (files [qdrant.go],
    [restapi.go], the options file that declares [applyClientOptions]) and of
    [vectorstores.NilEmbedder], followed by theorems about the payload codec,
    the score threshold, the scroll cursor and the construction of a store.

    Conventions of the embedding:
    - a Go function returning [(T, error)] becomes a computation whose
      outcome is [Ok t], [Err e], or [Panic p] for a run-time panic;
    - network, UUID generation and environment variables are read from an
      environment record [Env]; the requests sent and the UUIDs drawn are
      recorded in a [World] threaded through every effectful function;
    - [map[string]any] is [option (gmap string any)], [None] being the nil
      map. *)

From Stdlib Require Import ZArith Ascii String Floats.SpecFloat.
From stdpp Require Import gmap strings pretty list fin_maps.

Set Warnings "-register-all".

Local Open Scope string_scope.
Local Open Scope list_scope.

(** ** Numbers *)

(** [float32] values are IEEE 754 floats (precision 24, maximal exponent
    128) in the representation of [SpecFloat]; comparisons are the IEEE
    ones, so a NaN is neither [>=] nor [==] to anything. *)
Definition float32 : Type := spec_float.
Definition float64 : Type := spec_float.

Definition f32_zero : float32 := S754_zero false.
Definition f32_one : float32 := S754_finite false 8388608 (-23).

(** Go's [a == b], [a != b], [a < b], [a > b] and [a >= b] on floats. *)
Definition f32_eq (a b : float32) : bool := SFeqb a b.
Definition f32_ne (a b : float32) : bool := negb (SFeqb a b).
Definition f32_lt (a b : float32) : bool := SFltb a b.
Definition f32_gt (a b : float32) : bool := SFltb b a.
Definition f32_ge (a b : float32) : bool := SFleb b a.

Definition Vector : Type := list float32.

(** ** Dynamically typed values

    The values an [any] holds in this package: what [encoding/json] decodes
    into an [any] (nil, bool, float64, string, [[]any], [map[string]any]),
    plus the nil slice and the nil map, which a caller can store in a
    metadata mapping.  The dynamic Go type of a number is not tracked. *)
Inductive any : Type :=
| ANil
| ABool (b : bool)
| ANumber (x : float64)
| AString (s : string)
| ASlice (l : option (list any))
| AMap (m : option (gmap string any)).

(** [map[string]any]; [None] is the nil map. *)
Abbreviation gomap := (option (gmap string any)).

(** [m[k]]: the zero value (the nil interface) when [k] is absent or [m] is nil. *)
Definition mapIndex (m : gomap) (k : string) : any :=
  match m with
  | None => ANil
  | Some g => default ANil (g !! k)
  end.

(** [v != nil] for an interface value [v]. *)
Definition notNil (v : any) : bool :=
  match v with
  | ANil => false
  | _ => true
  end.

(** [m != nil] for a map [m]. *)
Definition mapNotNil (m : gomap) : bool :=
  match m with
  | None => false
  | Some _ => true
  end.

(** [v.(string)] and [v.(map[string]any)]: [None] when the dynamic type differs. *)
Definition assertString (v : any) : option string :=
  match v with
  | AString s => Some s
  | _ => None
  end.

Definition assertMap (v : any) : option gomap :=
  match v with
  | AMap m => Some m
  | _ => None
  end.

(** ** Errors, panics and outcomes *)

Inductive error : Type :=
| ErrMissingTextKey
| ErrEmbedderWrongNumberVectors
| ErrEmbedderIsNil
| ErrEmptyResponse
| ErrInvalidScoreThreshold
| ErrInvalidOptions
| Wrapf (inner : error) (suffix : string)   (* fmt.Errorf("%w<suffix>", inner) *)
| APIError (Task Message : string)
| ForeignError (text : string).             (* an error of a collaborator *)

Fixpoint errorText (e : error) : string :=
  match e with
  | ErrMissingTextKey => "missing text key in vector metadata"
  | ErrEmbedderWrongNumberVectors =>
      "number of vectors from embedder does not match number of documents"
  | ErrEmbedderIsNil => "embedder is NilEmbedder"
  | ErrEmptyResponse => "empty response"
  | ErrInvalidScoreThreshold => "score threshold must be between 0 and 1"
  | ErrInvalidOptions => "invalid options"
  | Wrapf inner suffix => errorText inner +:+ suffix
  | APIError task message => task +:+ ": " +:+ message
  | ForeignError text => text
  end.

Global Instance error_eq_dec : EqDecision error.
Proof. solve_decision. Defined.

(** [errors.Is(e, target)]. *)
Fixpoint errors_Is (e target : error) : bool :=
  if decide (e = target) then true
  else match e with
       | Wrapf inner _ => errors_Is inner target
       | _ => false
       end.

Inductive panic : Type :=
| IndexOutOfRange
| InterfaceConversion
| NilDereference.

Inductive outcome (A : Type) : Type :=
| Ok (a : A)
| Err (e : error)
| Panic (p : panic).
Arguments Ok {A} a.
Arguments Err {A} e.
Arguments Panic {A} p.

(** ** Data of the adapter *)

(** [schema.Document]. *)
Record Document : Type := mkDocument {
  PageContent : string;
  Metadata : gomap;
  Score : float32
}.

(** [embeddings.Embedder], by dynamic type: [vectorstores.NilEmbedder] or
    any other implementation, given by its two methods. *)
Inductive Embedder : Type :=
| NilEmbedder
| OtherEmbedder (embedDocuments : list string -> outcome (list Vector))
                (embedQuery : string -> outcome Vector).

Record Store : Type := mkStore {
  embedder : option Embedder;
  useCloud : bool;
  apiKey : string;
  baseURL : string;
  collectionName : string;
  contentKey : string;
  metadataKey : string;
  indexKeys : list string;
  collectionConfig : gomap
}.

(** [Store{}]. *)
Definition zeroStore : Store :=
  {| embedder := None; useCloud := false; apiKey := ""; baseURL := "";
     collectionName := ""; contentKey := ""; metadataKey := "";
     indexKeys := []; collectionConfig := None |}.

Record point : Type := mkPoint {
  pVector : Vector;
  pPayload : gomap;
  pID : string
}.

Record scoredPoint : Type := mkScoredPoint {
  spID : string;
  spVersion : Z;
  spScore : float32;
  spPayload : gomap;
  spVector : Vector
}.

Record queriesResponse : Type := mkQueriesResponse {
  qrTime : float32;
  qrStatus : string;
  qrResult : list scoredPoint
}.

Record queryPayload : Type := mkQueryPayload {
  qWithVector : bool;
  qWithPayload : bool;
  qVector : Vector;
  qLimit : Z;
  qFilter : any;
  qScoreThreshold : float32
}.

Record scrollResult : Type := mkScrollResult {
  srPoints : list point;
  srNextPageOffset : option string      (* *string *)
}.

Record scrollResponse : Type := mkScrollResponse {
  scTime : float32;
  scStatus : string;
  scResult : option scrollResult        (* *scrollResult *)
}.

Record ScrollPointsRequest : Type := mkScrollPointsRequest {
  Offset : string;
  Limit : Z;
  Filter : any;
  WithPayload : bool;
  WithVector : bool
}.

(** ** The wire *)

(** The payload handed to [doRequest], by call site. *)
Inductive RequestBody : Type :=
| UpsertBody (points : list point)
| DeleteBody (filter : any)
| CollectionBody (config : gmap string any)
| IndexBody (fields : gmap string string)
| QueryBody (q : queryPayload)
| ScrollBody (req : option ScrollPointsRequest).

Record Request : Type := mkRequest {
  reqMethod : string;
  reqURL : string;
  reqApiKey : string;
  reqBody : RequestBody
}.

(** A response body, by what each of its readers in the package obtains
    from it: [io.Copy] into a buffer, and [json.Decoder.Decode] into a
    [queriesResponse] or a [scrollResponse]. *)
Record Body : Type := mkBody {
  readAll : error + string;
  decodeQueries : error + queriesResponse;
  decodeScroll : error + scrollResponse
}.

(** The collaborators: environment variables, the UUID generator (the value
    of the [n]-th call), [json.Marshal], [http.NewRequestWithContext] and
    [http.DefaultClient.Do] (which may depend on the requests sent before). *)
Record Env : Type := mkEnv {
  getenv : string -> string;
  uuidNew : nat -> string;
  jsonMarshal : RequestBody -> option error;
  newRequest : string -> string -> option error;
  httpDo : list Request -> Request -> error + (Z * Body)
}.

Record World : Type := mkWorld {
  requests : list Request;     (* requests sent so far, oldest first *)
  uuidsDrawn : nat             (* calls to uuid.New so far *)
}.

Definition M (A : Type) : Type := World -> outcome A * World.

Definition ret {A} (a : A) : M A := fun w => (Ok a, w).
Definition fail {A} (e : error) : M A := fun w => (Err e, w).
Definition throw {A} (p : panic) : M A := fun w => (Panic p, w).

Definition bind {A B} (m : M A) (k : A -> M B) : M B :=
  fun w =>
    match m w with
    | (Ok a, w') => k a w'
    | (Err e, w') => (Err e, w')
    | (Panic p, w') => (Panic p, w')
    end.

(** A call whose returned error is dropped ([f(...)] as a statement). *)
Definition discard {A} (m : M A) : M unit :=
  fun w =>
    match m w with
    | (Panic p, w') => (Panic p, w')
    | (_, w') => (Ok tt, w')
    end.

Definition lift {A} (o : outcome A) : M A := fun w => (o, w).

Declare Scope go_scope.
Delimit Scope go_scope with go.
Notation "x <- m ;; k" := (bind m (fun x => k))
  (at level 100, m at next level, right associativity) : go_scope.
Local Open Scope go_scope.

(** [http.StatusOK]. *)
Definition StatusOK : Z := 200.
Definition MethodPut : string := "PUT".
Definition MethodPost : string := "POST".

(** ** [vectorstores]: the nil embedder and the per-call options *)

(** [float32(0.0000001)]. *)
Definition nilComponent : float32 := S754_finite false 14073749 (-47).

Definition NewNilVector : Vector := replicate 1536 nilComponent.

Definition EmbedDocuments (e : Embedder) (texts : list string) : outcome (list Vector) :=
  match e with
  | NilEmbedder => Ok (map (fun _ => NewNilVector) texts)
  | OtherEmbedder embedDocuments _ => embedDocuments texts
  end.

Definition EmbedQuery (e : Embedder) (text : string) : outcome Vector :=
  match e with
  | NilEmbedder => Ok NewNilVector
  | OtherEmbedder _ embedQuery => embedQuery text
  end.

(** A method call through an interface value; calling through the nil
    interface panics. *)
Definition callEmbedDocuments (e : option Embedder) (texts : list string)
  : outcome (list Vector) :=
  match e with
  | None => Panic NilDereference
  | Some e => EmbedDocuments e texts
  end.

Definition callEmbedQuery (e : option Embedder) (text : string) : outcome Vector :=
  match e with
  | None => Panic NilDereference
  | Some e => EmbedQuery e text
  end.

(** [s.embedder.(vectorstores.NilEmbedder)], second result. *)
Definition isNilEmbedder (e : option Embedder) : bool :=
  match e with
  | Some NilEmbedder => true
  | _ => false
  end.

(** The fields of [vectorstores.Options] that this package reads.  The
    declaration of the struct is in a file of [vectorstores] that is not part
    of the sources at hand; the three fields are the ones [qdrant.go] uses. *)
Record Options : Type := mkOptions {
  optEmbedder : option Embedder;
  optScoreThreshold : float32;
  optFilters : any
}.

(** [vectorstores.Options{}]. *)
Definition zeroOptions : Options :=
  {| optEmbedder := None; optScoreThreshold := f32_zero; optFilters := ANil |}.

(** [vectorstores.Option]: a function that updates the options in place. *)
Definition CallOption : Type := Options -> Options.

Definition WithCallEmbedder (e : Embedder) : CallOption :=
  fun o => {| optEmbedder := Some e;
              optScoreThreshold := optScoreThreshold o;
              optFilters := optFilters o |}.

Definition WithScoreThreshold (t : float32) : CallOption :=
  fun o => {| optEmbedder := optEmbedder o;
              optScoreThreshold := t;
              optFilters := optFilters o |}.

Definition WithFilters (f : any) : CallOption :=
  fun o => {| optEmbedder := optEmbedder o;
              optScoreThreshold := optScoreThreshold o;
              optFilters := f |}.

(** ** Construction options of the store *)

Definition _qdrantKeyEnvVarName : string := "QDRANT_API_KEY".
Definition _qdrantURLEnvVarName : string := "QDRANT_BASE_URL".
Definition _defaultContentKey : string := "page_content".
Definition _defaultMetadataKey : string := "metadata".

Definition num (m : positive) (e : Z) : any := ANumber (S754_finite false m e).

Definition _defaultCollectionConfig : gmap string any :=
  {[ "optimizers_config" :=
       AMap (Some {[ "memmap_threshold" := num (10000 * 2 ^ 39) (-39) ]});
     "vectors" :=
       AMap (Some {[ "size" := num (3 * 2 ^ 51) (-42);
                     "distance" := AString "Cosine" ]});
     "on_disk_payload" := ABool true ]}.

Inductive Option : Type :=
| WithEmbedder (e : option Embedder)
| WithCollectionConfig (config : gomap)
| WithContentKey (contentKey : string)
| WithMetadataKey (metadataKey : string)
| WithIndexKeys (indexKeys : list string)
| WithAPIKey (apiKey : string)
| WithBaseURL (baseURL : string)
| WithUseCloud (isCloud : bool)
| WithCollectionName (collectionName : string).

Definition applyOption (opt : Option) (p : Store) : Store :=
  match opt with
  | WithEmbedder e =>
      mkStore e (useCloud p) (apiKey p) (baseURL p) (collectionName p)
              (contentKey p) (metadataKey p) (indexKeys p) (collectionConfig p)
  | WithCollectionConfig config =>
      mkStore (embedder p) (useCloud p) (apiKey p) (baseURL p) (collectionName p)
              (contentKey p) (metadataKey p) (indexKeys p) config
  | WithContentKey k =>
      mkStore (embedder p) (useCloud p) (apiKey p) (baseURL p) (collectionName p)
              k (metadataKey p) (indexKeys p) (collectionConfig p)
  | WithMetadataKey k =>
      mkStore (embedder p) (useCloud p) (apiKey p) (baseURL p) (collectionName p)
              (contentKey p) k (indexKeys p) (collectionConfig p)
  | WithIndexKeys ks =>
      mkStore (embedder p) (useCloud p) (apiKey p) (baseURL p) (collectionName p)
              (contentKey p) (metadataKey p) ks (collectionConfig p)
  | WithAPIKey k =>
      mkStore (embedder p) (useCloud p) k (baseURL p) (collectionName p)
              (contentKey p) (metadataKey p) (indexKeys p) (collectionConfig p)
  | WithBaseURL u =>
      mkStore (embedder p) (useCloud p) (apiKey p) u (collectionName p)
              (contentKey p) (metadataKey p) (indexKeys p) (collectionConfig p)
  | WithUseCloud c =>
      mkStore (embedder p) c (apiKey p) (baseURL p) (collectionName p)
              (contentKey p) (metadataKey p) (indexKeys p) (collectionConfig p)
  | WithCollectionName n =>
      mkStore (embedder p) (useCloud p) (apiKey p) (baseURL p) n
              (contentKey p) (metadataKey p) (indexKeys p) (collectionConfig p)
  end.

(** The store [applyClientOptions] starts from. *)
Definition initialStore : Store :=
  {| embedder := None; useCloud := false; apiKey := ""; baseURL := "";
     collectionName := "";
     contentKey := _defaultContentKey;
     metadataKey := _defaultMetadataKey;
     indexKeys := [];
     collectionConfig := Some _defaultCollectionConfig |}.

(** [for _, opt := range opts { opt(o) }]. *)
Definition applyOptions (opts : list Option) (o : Store) : Store :=
  fold_left (fun p opt => applyOption opt p) opts o.

Definition setApiKey (p : Store) (k : string) : Store := applyOption (WithAPIKey k) p.
Definition setBaseURL (p : Store) (u : string) : Store := applyOption (WithBaseURL u) p.

Definition isEmpty (s : string) : bool := bool_decide (s = "").

Section WithEnv.
Context (E : Env).

(** [applyClientOptions]: the pair [(Store, error)] it returns, [None]
    being the nil error. *)
Definition applyClientOptions (opts : list Option) : Store * option error :=
  let o := applyOptions opts initialStore in
  match embedder o with
  | None => (zeroStore, Some (Wrapf ErrInvalidOptions ": missing embedder"))
  | Some _ =>
    let keyStep : Store + error :=
      if isEmpty (apiKey o) then
        let o1 := setApiKey o (getenv E _qdrantKeyEnvVarName) in
        if useCloud o1 && isEmpty (apiKey o1) then
          inr (Wrapf ErrInvalidOptions
                 (": missing api key. Pass it as an option or set the "
                  +:+ _qdrantKeyEnvVarName +:+ " environment variable"))
        else inl o1
      else inl o in
    match keyStep with
    | inr e => (zeroStore, Some e)
    | inl o1 =>
      let urlStep : Store + error :=
        if isEmpty (baseURL o1) then
          let o2 := setBaseURL o1 (getenv E _qdrantURLEnvVarName) in
          if isEmpty (baseURL o2) then
            inr (Wrapf ErrInvalidOptions
                   (": missing api url. Pass it as an option or set the "
                    +:+ _qdrantURLEnvVarName +:+ " environment variable"))
          else inl o2
        else inl o1 in
      match urlStep with
      | inr e => (zeroStore, Some e)
      | inl o2 =>
        if isEmpty (collectionName o2) then
          (zeroStore, Some (Wrapf ErrInvalidOptions ": missing collection name"))
        else (o2, None)
      end
    end
  end.

(** ** The HTTP primitive *)

Definition recordRequest (r : Request) (w : World) : World :=
  {| requests := requests w ++ [r]; uuidsDrawn := uuidsDrawn w |}.

(** [doRequest]: the body and the status code, or the error. *)
Definition doRequest (payload : RequestBody) (url apiKey method : string)
  : M (Body * Z) :=
  fun w =>
    match jsonMarshal E payload with
    | Some e => (Err e, w)
    | None =>
      match newRequest E method url with
      | Some e => (Err e, w)
      | None =>
        let req := {| reqMethod := method; reqURL := url;
                      reqApiKey := apiKey; reqBody := payload |} in
        match httpDo E (requests w) req with
        | inl e => (Err e, recordRequest req w)
        | inr (status, body) => (Ok (body, status), recordRequest req w)
        end
      end
    end.

Definition getEndpoint (baseURL collection path : string) : string :=
  let path :=
    if negb (isEmpty path) && negb (String.prefix "/" path)
    then "/" +:+ path else path in
  baseURL +:+ "/collections/" +:+ collection +:+ path.

Definition newAPIError (task : string) (body : Body) : error :=
  match readAll body with
  | inl err => APIError "reading body of error message" (errorText err)
  | inr text => APIError task text
  end.

(** [uuid.New().String()]. *)
Definition uuidNewString : M string :=
  fun w => (Ok (uuidNew E (uuidsDrawn w)),
            {| requests := requests w; uuidsDrawn := S (uuidsDrawn w) |}).

(** [xs[i]]. *)
Definition index {A} (xs : list A) (i : nat) : M A :=
  match xs !! i with
  | Some x => ret x
  | None => throw IndexOutOfRange
  end.

(** ** Upsert *)

(** The ID of point [i]: the UUID just drawn, or the metadata's
    ["__point_id"] asserted to be a string. *)
Definition pointID (fresh : string) (metadata : gomap) : outcome string :=
  if mapNotNil metadata && notNil (mapIndex metadata "__point_id") then
    match assertString (mapIndex metadata "__point_id") with
    | Some id => Ok id
    | None => Panic InterfaceConversion
    end
  else Ok fresh.

(** [map[string]any{s.contentKey: text, s.metadataKey: metadata}]: the
    entries are stored in order, so the second wins when the keys coincide. *)
Definition encodePayload (s : Store) (text : string) (metadata : gomap) : gomap :=
  Some (<[metadataKey s := AMap metadata]> (<[contentKey s := AString text]> ∅)).

(** The loop of [restUpsert], from index [i] on, over the vectors left. *)
Fixpoint upsertLoop (s : Store) (texts : list string) (metadatas : list gomap)
    (i : nat) (vectors : list Vector) (v : list point) : M (list point) :=
  match vectors with
  | [] => ret v
  | vec :: rest =>
      fresh <- uuidNewString ;;
      md <- index metadatas i ;;
      ID <- lift (pointID fresh md) ;;
      text <- index texts i ;;
      upsertLoop s texts metadatas (S i) rest
        (v ++ [ {| pVector := vec; pPayload := encodePayload s text md; pID := ID |} ])
  end.

Definition restUpsert (s : Store) (texts : list string) (vectors : list Vector)
    (metadatas : list gomap) (collection : string) : M unit :=
  v <- upsertLoop s texts metadatas 0 vectors [] ;;
  r <- doRequest (UpsertBody v) (getEndpoint (baseURL s) collection "/points")
         (apiKey s) MethodPut ;;
  if bool_decide (snd r = StatusOK) then ret tt
  else fail (newAPIError "upserting vectors" (fst r)).

Definition restDeletePoints (s : Store) (collection : string) (filter : any) : M unit :=
  r <- doRequest (DeleteBody filter)
         (getEndpoint (baseURL s) collection "/points/delete") (apiKey s) MethodPost ;;
  if bool_decide (snd r = StatusOK) then ret tt
  else fail (newAPIError "deleting points" (fst r)).

(** ** Provisioning *)

Definition restNewCollection (s : Store) (collection : string) : M unit :=
  let config := <["name" := AString collection]> (default ∅ (collectionConfig s)) in
  r <- doRequest (CollectionBody config) (getEndpoint (baseURL s) collection "")
         (apiKey s) MethodPut ;;
  if bool_decide (snd r = StatusOK) then ret tt
  else fail (newAPIError "creating collection" (fst r)).

Definition restIndexMetadataKey (s : Store) (collection key : string) : M unit :=
  r <- doRequest
         (IndexBody {[ "field_name" := key; "field_schema" := "keyword" ]})
         (getEndpoint (baseURL s) collection "/index") (apiKey s) MethodPut ;;
  if bool_decide (snd r = StatusOK) then ret tt
  else fail (newAPIError "indexing metadata key" (fst r)).

(** [for _, indexKey := range keys { s.restIndexMetadataKey(...) }], every
    returned error dropped. *)
Fixpoint indexAll (s : Store) (keys : list string) : M unit :=
  match keys with
  | [] => ret tt
  | k :: rest =>
      _ <- discard (restIndexMetadataKey s (collectionName s) k) ;;
      indexAll s rest
  end.

(** [New]: the pair [(Store, error)] it returns. *)
Definition New (opts : list Option) : M (Store * option error) :=
  match applyClientOptions opts with
  | (_, Some err) => ret (zeroStore, Some err)
  | (s, None) =>
      _ <- discard (restNewCollection s (collectionName s)) ;;
      _ <- indexAll s (indexKeys s) ;;
      ret (s, None)
  end.

(** ** Similarity query *)

(** The test that guards [docs = append(docs, doc)] in [restQuery]:
    [if t != 0 && score >= t {...} else if t == 0 {...}]. *)
Definition keeps (scoreThreshold score : float32) : bool :=
  if f32_ne scoreThreshold f32_zero && f32_ge score scoreThreshold then true
  else if f32_eq scoreThreshold f32_zero then true
  else false.

(** The body of the loop of [restQuery] up to the construction of [doc]. *)
Definition decodeScored (s : Store) (spoint : scoredPoint) : outcome Document :=
  match assertString (mapIndex (spPayload spoint) (contentKey s)) with
  | None => Err ErrMissingTextKey
  | Some pageContent =>
    match assertMap (mapIndex (spPayload spoint) (metadataKey s)) with
    | None => Panic InterfaceConversion
    | Some metadata =>
        Ok {| PageContent := pageContent; Metadata := metadata;
              Score := spScore spoint |}
    end
  end.

(** The loop of [restQuery] over the points left, [docs] being the
    documents appended so far. *)
Fixpoint queryLoop (s : Store) (scoreThreshold : float32)
    (result : list scoredPoint) (docs : list Document) : outcome (list Document) :=
  match result with
  | [] => Ok docs
  | spoint :: rest =>
    match decodeScored s spoint with
    | Err e => Err e
    | Panic p => Panic p
    | Ok doc =>
        queryLoop s scoreThreshold rest
          (if keeps scoreThreshold (spScore spoint) then docs ++ [doc] else docs)
    end
  end.

(** What [restQuery] does with a response body once the status is 200. *)
Definition queryDocuments (s : Store) (scoreThreshold : float32) (body : Body)
  : outcome (list Document) :=
  match decodeQueries body with
  | inl err => Err err
  | inr response =>
    if bool_decide (length (qrResult response) = 0) then Err ErrEmptyResponse
    else queryLoop s scoreThreshold (qrResult response) []
  end.

Definition restQuery (s : Store) (vector : Vector) (numVectors : Z)
    (collection : string) (scoreThreshold : float32) (filter : any)
  : M (list Document) :=
  let payload :=
    {| qWithVector := true; qWithPayload := true; qVector := vector;
       qLimit := numVectors; qFilter := filter;
       qScoreThreshold := scoreThreshold |} in
  r <- doRequest (QueryBody payload)
         (getEndpoint (baseURL s) collection "/points/search") (apiKey s) MethodPost ;;
  if negb (bool_decide (snd r = StatusOK))
  then fail (newAPIError "querying index" (fst r))
  else lift (queryDocuments s scoreThreshold (fst r)).

(** ** Scroll *)

Definition decodePoint (s : Store) (spoint : point) : outcome Document :=
  match assertString (mapIndex (pPayload spoint) (contentKey s)) with
  | None => Err ErrMissingTextKey
  | Some pageContent =>
    match assertMap (mapIndex (pPayload spoint) (metadataKey s)) with
    | None => Panic InterfaceConversion
    | Some metadata =>
        Ok {| PageContent := pageContent; Metadata := metadata;
              Score := f32_zero |}
    end
  end.

Fixpoint scrollLoop (s : Store) (points : list point) (docs : list Document)
  : outcome (list Document) :=
  match points with
  | [] => Ok docs
  | spoint :: rest =>
    match decodePoint s spoint with
    | Err e => Err e
    | Panic p => Panic p
    | Ok doc => scrollLoop s rest (docs ++ [doc])
    end
  end.

(** What [restScrollPoints] does with a response body once the status is 200. *)
Definition scrollDocuments (s : Store) (body : Body)
  : outcome (list Document * string) :=
  match decodeScroll body with
  | inl err => Err err
  | inr response =>
    match scResult response with
    | None => Panic NilDereference
    | Some result =>
      match scrollLoop s (srPoints result) [] with
      | Err e => Err e
      | Panic p => Panic p
      | Ok docs =>
          Ok (docs, match srNextPageOffset result with
                    | Some offset => offset
                    | None => ""
                    end)
      end
    end
  end.

Definition restScrollPoints (s : Store) (collection : string)
    (req : option ScrollPointsRequest) : M (list Document * string) :=
  r <- doRequest (ScrollBody req)
         (getEndpoint (baseURL s) collection "/points/scroll") (apiKey s) MethodPost ;;
  if negb (bool_decide (snd r = StatusOK))
  then fail (newAPIError "scrolling points" (fst r))
  else lift (scrollDocuments s (fst r)).

(** ** The public operations *)

Definition getOptions (options : list CallOption) : Options :=
  fold_left (fun opts opt => opt opts) options zeroOptions.

Definition getEmbedder (s : Store) (options : Options) : option Embedder :=
  match optEmbedder options with
  | Some e => Some e
  | None => embedder s
  end.

Definition getFilters (opts : Options) : any :=
  if notNil (optFilters opts) then optFilters opts else ANil.

Definition getScoreThreshold (opts : Options) : outcome float32 :=
  if f32_lt (optScoreThreshold opts) f32_zero || f32_gt (optScoreThreshold opts) f32_one
  then Err ErrInvalidScoreThreshold
  else Ok (optScoreThreshold opts).

Definition AddDocuments (s : Store) (docs : list Document)
    (options : list CallOption) : M unit :=
  let opts := getOptions options in
  let emb := getEmbedder s opts in
  let texts := map PageContent docs in
  vectors <- lift (callEmbedDocuments emb texts) ;;
  if negb (isNilEmbedder (embedder s))
     && negb (bool_decide (length vectors = length docs))
  then fail ErrEmbedderWrongNumberVectors
  else restUpsert s texts vectors (map Metadata docs) (collectionName s).

Definition SimilaritySearch (s : Store) (query : string) (numDocuments : Z)
    (options : list CallOption) : M (list Document) :=
  let opts := getOptions options in
  let emb := getEmbedder s opts in
  let filters := getFilters opts in
  scoreThreshold <- lift (getScoreThreshold opts) ;;
  vector <- lift (callEmbedQuery emb query) ;;
  restQuery s vector numDocuments (collectionName s) scoreThreshold filters.

End WithEnv.

(** ** The codec, end to end *)

(** The point [restUpsert] builds for a document with the ID chosen for it. *)
Definition encode (s : Store) (id : string) (d : Document) (v : Vector) : point :=
  {| pVector := v; pPayload := encodePayload s (PageContent d) (Metadata d);
     pID := id |}.

(** A point seen as a point of a search result with the score and the
    version given: its ID, its vector, and the payload it was built with.
    What the transport to the index and back does to a payload is not part
    of this view. *)
Definition asScored (score : float32) (version : Z) (p : point) : scoredPoint :=
  {| spID := pID p; spVersion := version; spScore := score;
     spPayload := pPayload p; spVector := pVector p |}.

(** ** The earlier generation of the adapter: one flat text key

    The same package as it stood before the content and metadata keys were
    introduced: the payload of a point is the metadata itself, with the text
    added under [textKey]; a query removes that key again. *)
Module FlatScheme.

Record Store : Type := mkStore {
  embedder : option Embedder;
  useCloud : bool;
  apiKey : string;
  baseURL : string;
  textKey : string;
  collectionName : string
}.

(** [strings.TrimPrefix(path, "/")]. *)
Definition trimSlash (path : string) : string :=
  match path with
  | String "/"%char rest => rest
  | _ => path
  end.

Definition getEndpoint (baseURL collection path : string) : string :=
  baseURL +:+ "/collections/" +:+ collection +:+ "/" +:+ trimSlash path.

(** [delete(m, k)]; deleting from the nil map does nothing. *)
Definition mapDelete (m : gomap) (k : string) : gomap :=
  match m with
  | None => None
  | Some g => Some (delete k g)
  end.

(** The payload [AddDocuments] builds for a document: a copy of the
    metadata with the text added under [textKey]. *)
Definition encodePayload (s : Store) (text : string) (metadata : gomap) : gomap :=
  Some (<[textKey s := AString text]> (default ∅ metadata)).

Definition decodeScored (s : Store) (spoint : scoredPoint) : outcome Document :=
  match assertString (mapIndex (spPayload spoint) (textKey s)) with
  | None => Err ErrMissingTextKey
  | Some pageContent =>
      Ok {| PageContent := pageContent;
            Metadata := mapDelete (spPayload spoint) (textKey s);
            Score := spScore spoint |}
  end.

Fixpoint queryLoop (s : Store) (scoreThreshold : float32)
    (result : list scoredPoint) (docs : list Document) : outcome (list Document) :=
  match result with
  | [] => Ok docs
  | spoint :: rest =>
    match decodeScored s spoint with
    | Err e => Err e
    | Panic p => Panic p
    | Ok doc =>
        queryLoop s scoreThreshold rest
          (if keeps scoreThreshold (spScore spoint) then docs ++ [doc] else docs)
    end
  end.

Definition queryDocuments (s : Store) (scoreThreshold : float32) (body : Body)
  : outcome (list Document) :=
  match decodeQueries body with
  | inl err => Err err
  | inr response =>
    if bool_decide (length (qrResult response) = 0) then Err ErrEmptyResponse
    else queryLoop s scoreThreshold (qrResult response) []
  end.

Definition restQuery (E : Env) (s : Store) (vector : Vector) (numVectors : Z)
    (collection : string) (scoreThreshold : float32) (filter : any)
  : M (list Document) :=
  let payload :=
    {| qWithVector := true; qWithPayload := true; qVector := vector;
       qLimit := numVectors; qFilter := filter;
       qScoreThreshold := scoreThreshold |} in
  r <- doRequest E (QueryBody payload)
         (getEndpoint (baseURL s) collection "/points/search") (apiKey s) MethodPost ;;
  if negb (bool_decide (snd r = StatusOK))
  then fail (newAPIError "querying index" (fst r))
  else lift (queryDocuments s scoreThreshold (fst r)).

End FlatScheme.


(** * Auxiliary definitions of the proofs *)

(** The three decoding loops ([restQuery] of both generations,
    [restScrollPoints]) have one shape: decode the point, stop at the first
    failure, append the document if it is kept. *)
Section DecodeLoopDef.
Context {A : Type} (decode : A -> outcome Document) (keep : A -> bool).

Fixpoint decodeLoop (points : list A) (docs : list Document)
  : outcome (list Document) :=
  match points with
  | [] => Ok docs
  | p :: rest =>
    match decode p with
    | Err e => Err e
    | Panic x => Panic x
    | Ok doc => decodeLoop rest (if keep p then docs ++ [doc] else docs)
    end
  end.

Definition decodes (p : A) : Prop := exists d, decode p = Ok d.

End DecodeLoopDef.

(** The HTTP exchange [restQuery] performs. *)
Definition searchExchange (E : Env) (s : Store) (vector : Vector) (numVectors : Z)
    (collection : string) (scoreThreshold : float32) (filter : any) : M (Body * Z) :=
  doRequest E
    (QueryBody {| qWithVector := true; qWithPayload := true; qVector := vector;
                  qLimit := numVectors; qFilter := filter;
                  qScoreThreshold := scoreThreshold |})
    (getEndpoint (baseURL s) collection "/points/search") (apiKey s) MethodPost.

(** The same for the earlier generation, whose endpoint is built differently. *)
Definition flatSearchExchange (E : Env) (s : FlatScheme.Store) (vector : Vector)
    (numVectors : Z) (collection : string) (scoreThreshold : float32) (filter : any)
  : M (Body * Z) :=
  doRequest E
    (QueryBody {| qWithVector := true; qWithPayload := true; qVector := vector;
                  qLimit := numVectors; qFilter := filter;
                  qScoreThreshold := scoreThreshold |})
    (FlatScheme.getEndpoint (FlatScheme.baseURL s) collection "/points/search")
    (FlatScheme.apiKey s) MethodPost.

(** The HTTP exchange [restScrollPoints] performs. *)
Definition scrollExchange (E : Env) (s : Store) (collection : string)
    (req : option ScrollPointsRequest) : M (Body * Z) :=
  doRequest E (ScrollBody req)
    (getEndpoint (baseURL s) collection "/points/scroll") (apiKey s) MethodPost.

(** What one successful scroll call is: the exchange answers 200 with a
    result whose points all decode. *)
Definition goodPage (E : Env) (s : Store) (coll : string)
    (call : option ScrollPointsRequest * World) (result : scrollResult) : Prop :=
  exists w' body response,
    scrollExchange E s coll (fst call) (snd call) = (Ok (body, StatusOK), w')
    /\ decodeScroll body = inr response
    /\ scResult response = Some result
    /\ Forall (decodes (decodePoint s)) (srPoints result).


(** The requests of the provisioning done by [New], and of an upsert. *)
Definition collectionRequest (s : Store) : Request :=
  {| reqMethod := MethodPut;
     reqURL := getEndpoint (baseURL s) (collectionName s) "";
     reqApiKey := apiKey s;
     reqBody := CollectionBody
                  (<["name" := AString (collectionName s)]>
                     (default ∅ (collectionConfig s))) |}.

Definition indexRequest (s : Store) (key : string) : Request :=
  {| reqMethod := MethodPut;
     reqURL := getEndpoint (baseURL s) (collectionName s) "/index";
     reqApiKey := apiKey s;
     reqBody := IndexBody {[ "field_name" := key; "field_schema" := "keyword" ]} |}.

Definition upsertRequest (s : Store) (collection : string) (points : list point)
  : Request :=
  {| reqMethod := MethodPut;
     reqURL := getEndpoint (baseURL s) collection "/points";
     reqApiKey := apiKey s;
     reqBody := UpsertBody points |}.

(** The environment lets every request through to the network. *)
Definition alwaysSends (E : Env) : Prop :=
  (forall payload, jsonMarshal E payload = None)
  /\ (forall method url, newRequest E method url = None).

(** The UUID generator never repeats itself. *)
Definition uuidsDistinct (E : Env) : Prop :=
  forall i j, uuidNew E i = uuidNew E j -> i = j.

(** The value under ["__point_id"] is nil (or absent, or the mapping is
    nil), or it is a string. *)
Definition pointIDUsable (metadata : gomap) : Prop :=
  mapIndex metadata "__point_id" = ANil
  \/ exists id, mapIndex metadata "__point_id" = AString id.

(** * Concrete data for the examples *)

Definition f32_half : float32 := S754_finite false 8388608 (-24).
Definition f32_three_quarters : float32 := S754_finite false 12582912 (-24).

(** A body that is a JSON search response. *)
Definition searchBody (r : queriesResponse) : Body :=
  {| readAll := inr "";
     decodeQueries := inr r;
     decodeScroll := inl (ForeignError "json: cannot unmarshal array") |}.

(** A body that is a JSON scroll response. *)
Definition scrollBody (r : scrollResponse) : Body :=
  {| readAll := inr "";
     decodeQueries := inl (ForeignError "json: cannot unmarshal object");
     decodeScroll := inr r |}.

Definition errorBody (text : string) : Body :=
  {| readAll := inr text;
     decodeQueries := inl (ForeignError "invalid character");
     decodeScroll := inl (ForeignError "invalid character") |}.

(** An environment without variables set, whose index answers every
    request the same way. *)
Definition fixedEnv (answer : error + (Z * Body)) : Env :=
  {| getenv := fun _ => "";
     uuidNew := fun n => "uuid-" +:+ pretty n;
     jsonMarshal := fun _ => None;
     newRequest := fun _ _ => None;
     httpDo := fun _ _ => answer |}.

Definition newWorld : World := {| requests := []; uuidsDrawn := 0 |}.

Definition exampleStore : Store :=
  {| embedder := Some NilEmbedder; useCloud := false; apiKey := "";
     baseURL := "http://localhost:6333"; collectionName := "cities";
     contentKey := _defaultContentKey; metadataKey := _defaultMetadataKey;
     indexKeys := ["country"];
     collectionConfig := Some _defaultCollectionConfig |}.

Definition exampleFlatStore : FlatScheme.Store :=
  {| FlatScheme.embedder := Some NilEmbedder; FlatScheme.useCloud := false;
     FlatScheme.apiKey := ""; FlatScheme.baseURL := "http://localhost:6333";
     FlatScheme.textKey := "text"; FlatScheme.collectionName := "cities" |}.

Definition country (name : string) : gomap := Some {[ "country" := AString name ]}.

Definition cityPayload (content name : string) : gomap :=
  Some {[ "page_content" := AString content; "metadata" := AMap (country name) ]}.

Definition flatPayload (content name : string) : gomap :=
  Some {[ "text" := AString content; "country" := AString name ]}.

Definition scored (score : float32) (payload : gomap) : scoredPoint :=
  {| spID := "5f0c2b1e"; spVersion := 0; spScore := score;
     spPayload := payload; spVector := [] |}.

Definition tokyo : scoredPoint := scored f32_three_quarters (cityPayload "Tokyo" "Japan").
Definition paris : scoredPoint := scored f32_half (cityPayload "Paris" "France").
Definition flatTokyo : scoredPoint := scored f32_three_quarters (flatPayload "Tokyo" "Japan").
Definition flatParis : scoredPoint := scored f32_half (flatPayload "Paris" "France").

Definition searchResponse (result : list scoredPoint) : queriesResponse :=
  {| qrTime := f32_zero; qrStatus := "ok"; qrResult := result |}.

Definition searchEnv (result : list scoredPoint) : Env :=
  fixedEnv (inr (StatusOK, searchBody (searchResponse result))).

Definition stored (payload : gomap) : point :=
  {| pVector := []; pPayload := payload; pID := "5f0c2b1e" |}.

Definition scrollPage (points : list point) (next : option string) : scrollResponse :=
  {| scTime := f32_zero; scStatus := "ok";
     scResult := Some {| srPoints := points; srNextPageOffset := next |} |}.

Definition scrollEnv (points : list point) (next : option string) : Env :=
  fixedEnv (inr (StatusOK, scrollBody (scrollPage points next))).

(** A point stored without its text: only the metadata is there. *)
Definition untitledPayload : gomap := Some {[ "metadata" := AMap (country "Chile") ]}.

(** A point whose payload holds the text and nothing under the metadata key. *)
Definition barePayload : gomap := Some {[ "page_content" := AString "Tokyo" ]}.
Definition bare : scoredPoint := scored f32_three_quarters barePayload.


Definition tokyoDocument : Document :=
  {| PageContent := "Tokyo"; Metadata := country "Japan"; Score := f32_zero |}.


(** An index that answers the first scroll with a page and a cursor, and
    every later one with the last page. *)
Definition firstPage : scrollResult :=
  {| srPoints := [stored (cityPayload "Tokyo" "Japan")];
     srNextPageOffset := Some "8a1f3c52" |}.

Definition lastPage : scrollResult :=
  {| srPoints := [stored (cityPayload "Paris" "France")];
     srNextPageOffset := None |}.

Definition pageResponse (r : scrollResult) : scrollResponse :=
  {| scTime := f32_zero; scStatus := "ok"; scResult := Some r |}.

Definition pagingEnv : Env :=
  {| getenv := fun _ => "";
     uuidNew := fun n => "uuid-" +:+ pretty n;
     jsonMarshal := fun _ => None;
     newRequest := fun _ _ => None;
     httpDo := fun history _ =>
       match history with
       | [] => inr (StatusOK, scrollBody (pageResponse firstPage))
       | _ => inr (StatusOK, scrollBody (pageResponse lastPage))
       end |}.

Definition firstCall : option ScrollPointsRequest * World := (None, newWorld).

Definition secondCall : option ScrollPointsRequest * World :=
  (Some {| Offset := "8a1f3c52"; Limit := 10; Filter := ANil;
           WithPayload := true; WithVector := false |},
   snd (restScrollPoints pagingEnv exampleStore "cities" None newWorld)).

(** An index that is down, and one that refuses every request. *)
Definition downEnv : Env := fixedEnv (inl (ForeignError "connection refused")).
Definition refusingEnv : Env := fixedEnv (inr (500%Z, errorBody "internal error")).

Definition exampleOptions : list Option :=
  [ WithEmbedder (Some NilEmbedder); WithBaseURL "http://localhost:6333";
    WithCollectionName "cities"; WithIndexKeys ["country"] ].

(** An embedder that returns no vector at all, and one that returns one
    vector whatever it is given. *)
Definition silentEmbedder : Embedder :=
  OtherEmbedder (fun _ => Ok []) (fun _ => Ok []).

Definition singleEmbedder : Embedder :=
  OtherEmbedder (fun _ => Ok [[f32_half]]) (fun _ => Ok [f32_half]).

Definition okEnv : Env := fixedEnv (inr (StatusOK, errorBody "")).

Definition singleStore : Store := applyOption (WithEmbedder (Some singleEmbedder)) exampleStore.

Definition parisDocument : Document :=
  {| PageContent := "Paris"; Metadata := country "France"; Score := f32_zero |}.

(** Metadata that carry a point ID, as a string and as a number. *)
Definition withID (id : any) : gomap :=
  Some {[ "country" := AString "Japan"; "__point_id" := id ]}.

(** * The rest of the package *)

(** [Store.Close]. *)
Definition Close (s : Store) : option error := None.

(** [FilterMatch] and [Store.NewMustEqualFilter]: one clause per match, the
    key qualified by the metadata key; [Values] is a [[]any], [None] when
    nil. *)
Record FilterMatch : Type := mkFilterMatch {
  Key : string;
  Values : option (list any)
}.

Definition mustClause (s : Store) (filter : FilterMatch) : any :=
  AMap (Some {[ "key" := AString (metadataKey s +:+ "." +:+ Key filter);
                "match" := AMap (Some {[ "any" := ASlice (Values filter) ]}) ]}).

Definition NewMustEqualFilter (s : Store) (filters : list FilterMatch) : any :=
  AMap (Some {[ "must" := ASlice (Some (map (mustClause s) filters)) ]}).

(** The requests of the remaining operations. *)
Definition searchRequest (s : Store) (vector : Vector) (numVectors : Z)
    (collection : string) (scoreThreshold : float32) (filter : any) : Request :=
  {| reqMethod := MethodPost;
     reqURL := getEndpoint (baseURL s) collection "/points/search";
     reqApiKey := apiKey s;
     reqBody := QueryBody {| qWithVector := true; qWithPayload := true;
                             qVector := vector; qLimit := numVectors;
                             qFilter := filter;
                             qScoreThreshold := scoreThreshold |} |}.

Definition deleteRequest (s : Store) (collection : string) (filter : any) : Request :=
  {| reqMethod := MethodPost;
     reqURL := getEndpoint (baseURL s) collection "/points/delete";
     reqApiKey := apiKey s;
     reqBody := DeleteBody filter |}.

Definition scrollRequest (s : Store) (collection : string)
    (req : option ScrollPointsRequest) : Request :=
  {| reqMethod := MethodPost;
     reqURL := getEndpoint (baseURL s) collection "/points/scroll";
     reqApiKey := apiKey s;
     reqBody := ScrollBody req |}.

(** The index answers every request with this status and this body. *)
Definition answersAll (E : Env) (status : Z) (body : Body) : Prop :=
  forall history req, httpDo E history req = inr (status, body).

(** The document a search returns for [d] when the point scored [score]. *)
Definition scoredAs (score : float32) (d : Document) : Document :=
  {| PageContent := PageContent d; Metadata := Metadata d; Score := score |}.

(** ** [vectorstores]: the retriever *)

(** [vectorstores.VectorStore], by its two methods. *)
Record VectorStore : Type := mkVectorStore {
  vsAddDocuments : list Document -> list CallOption -> M unit;
  vsSimilaritySearch : string -> Z -> list CallOption -> M (list Document)
}.

(** The qdrant [Store] as a [VectorStore]. *)
Definition asVectorStore (E : Env) (s : Store) : VectorStore :=
  {| vsAddDocuments := AddDocuments E s;
     vsSimilaritySearch := SimilaritySearch E s |}.

(** What a [callbacks.Handler] is told by the retriever. *)
Inductive RetrieverEvent : Type :=
| HandleRetrieverStart (query : string)
| HandleRetrieverEnd (query : string) (documents : list Document).

(** [Retriever]; [hasHandler] says whether [CallbacksHandler] is not nil. *)
Record Retriever : Type := mkRetriever {
  hasHandler : bool;
  v : option VectorStore;
  numDocs : Z;
  options : list CallOption
}.

Definition ToRetriever (vectorStore : option VectorStore) (numDocuments : Z)
    (options : list CallOption) : Retriever :=
  {| hasHandler := false; v := vectorStore; numDocs := numDocuments;
     options := options |}.

(** [Retriever.GetRelevantDocuments]: the outcome, the world, and the calls
    made to the handler, in order. *)
Definition GetRelevantDocuments (r : Retriever) (query : string) (w : World)
  : outcome (list Document) * World * list RetrieverEvent :=
  let started := if hasHandler r then [HandleRetrieverStart query] else [] in
  match v r with
  | None => (Panic NilDereference, w, started)
  | Some store =>
    match vsSimilaritySearch store query (numDocs r) (options r) w with
    | (Err e, w') => (Err e, w', started)
    | (Panic p, w') => (Panic p, w', started)
    | (Ok docs, w') =>
        (Ok docs, w',
         started ++ (if hasHandler r then [HandleRetrieverEnd query docs] else []))
    end
  end.

(** ** The earlier generation: construction, upsert and the public
    operations *)
Module FlatOps.

Definition _defaultTextKey : string := "text".

Inductive Option : Type :=
| WithEmbedder (e : option Embedder)
| WithAPIKey (apiKey : string)
| WithBaseURL (baseURL : string)
| WithUseCloud (isCloud : bool)
| WithTextKey (textKey : string)
| WithCollectionName (collectionName : string).

Definition applyOption (opt : Option) (p : FlatScheme.Store) : FlatScheme.Store :=
  match opt with
  | WithEmbedder e =>
      FlatScheme.mkStore e (FlatScheme.useCloud p) (FlatScheme.apiKey p)
        (FlatScheme.baseURL p) (FlatScheme.textKey p) (FlatScheme.collectionName p)
  | WithAPIKey k =>
      FlatScheme.mkStore (FlatScheme.embedder p) (FlatScheme.useCloud p) k
        (FlatScheme.baseURL p) (FlatScheme.textKey p) (FlatScheme.collectionName p)
  | WithBaseURL u =>
      FlatScheme.mkStore (FlatScheme.embedder p) (FlatScheme.useCloud p)
        (FlatScheme.apiKey p) u (FlatScheme.textKey p) (FlatScheme.collectionName p)
  | WithUseCloud c =>
      FlatScheme.mkStore (FlatScheme.embedder p) c (FlatScheme.apiKey p)
        (FlatScheme.baseURL p) (FlatScheme.textKey p) (FlatScheme.collectionName p)
  | WithTextKey k =>
      FlatScheme.mkStore (FlatScheme.embedder p) (FlatScheme.useCloud p)
        (FlatScheme.apiKey p) (FlatScheme.baseURL p) k (FlatScheme.collectionName p)
  | WithCollectionName n =>
      FlatScheme.mkStore (FlatScheme.embedder p) (FlatScheme.useCloud p)
        (FlatScheme.apiKey p) (FlatScheme.baseURL p) (FlatScheme.textKey p) n
  end.

Definition zeroStore : FlatScheme.Store :=
  FlatScheme.mkStore None false "" "" "" "".

Definition initialStore : FlatScheme.Store :=
  FlatScheme.mkStore None false "" "" _defaultTextKey "".

Definition applyOptions (opts : list Option) (o : FlatScheme.Store) : FlatScheme.Store :=
  fold_left (fun p opt => applyOption opt p) opts o.

Definition applyClientOptions (E : Env) (opts : list Option)
  : FlatScheme.Store * option error :=
  let o := applyOptions opts initialStore in
  match FlatScheme.embedder o with
  | None => (zeroStore, Some (Wrapf ErrInvalidOptions ": missing embedder"))
  | Some _ =>
    let keyStep : FlatScheme.Store + error :=
      if isEmpty (FlatScheme.apiKey o) then
        let o1 := applyOption (WithAPIKey (getenv E _qdrantKeyEnvVarName)) o in
        if FlatScheme.useCloud o1 && isEmpty (FlatScheme.apiKey o1) then
          inr (Wrapf ErrInvalidOptions
                 (": missing api key. Pass it as an option or set the "
                  +:+ _qdrantKeyEnvVarName +:+ " environment variable"))
        else inl o1
      else inl o in
    match keyStep with
    | inr e => (zeroStore, Some e)
    | inl o1 =>
      let urlStep : FlatScheme.Store + error :=
        if isEmpty (FlatScheme.baseURL o1) then
          let o2 := applyOption (WithBaseURL (getenv E _qdrantURLEnvVarName)) o1 in
          if isEmpty (FlatScheme.baseURL o2) then
            inr (Wrapf ErrInvalidOptions
                   (": missing api url. Pass it as an option or set the "
                    +:+ _qdrantURLEnvVarName +:+ " environment variable"))
          else inl o2
        else inl o1 in
      match urlStep with
      | inr e => (zeroStore, Some e)
      | inl o2 =>
        if isEmpty (FlatScheme.collectionName o2) then
          (zeroStore, Some (Wrapf ErrInvalidOptions ": missing collection name"))
        else (o2, None)
      end
    end
  end.

(** [New]: nothing but the validation of the options. *)
Definition New (E : Env) (opts : list Option) : M (FlatScheme.Store * option error) :=
  match applyClientOptions E opts with
  | (_, Some err) => ret (zeroStore, Some err)
  | (s, None) => ret (s, None)
  end.

(** The loop of [restUpsert]: every point gets a new UUID. *)
Fixpoint upsertLoop (E : Env) (metadatas : list gomap) (i : nat)
    (vectors : list Vector) (v : list point) : M (list point) :=
  match vectors with
  | [] => ret v
  | vec :: rest =>
      md <- index metadatas i ;;
      ID <- uuidNewString E ;;
      upsertLoop E metadatas (S i) rest
        (v ++ [ {| pVector := vec; pPayload := md; pID := ID |} ])
  end.

Definition restUpsert (E : Env) (s : FlatScheme.Store) (vectors : list Vector)
    (metadatas : list gomap) (collection : string) : M unit :=
  v <- upsertLoop E metadatas 0 vectors [] ;;
  r <- doRequest E (UpsertBody v)
         (FlatScheme.getEndpoint (FlatScheme.baseURL s) collection "/points")
         (FlatScheme.apiKey s) MethodPut ;;
  if bool_decide (snd r = StatusOK) then ret tt
  else fail (newAPIError "upserting vectors" (fst r)).

Definition AddDocuments (E : Env) (s : FlatScheme.Store) (docs : list Document)
    (options : list CallOption) : M unit :=
  let texts := map PageContent docs in
  vectors <- lift (callEmbedDocuments (FlatScheme.embedder s) texts) ;;
  if negb (bool_decide (length vectors = length docs))
  then fail ErrEmbedderWrongNumberVectors
  else restUpsert E s vectors
         (map (fun doc => FlatScheme.encodePayload s (PageContent doc) (Metadata doc)) docs)
         (FlatScheme.collectionName s).

Definition SimilaritySearch (E : Env) (s : FlatScheme.Store) (query : string)
    (numDocuments : Z) (options : list CallOption) : M (list Document) :=
  let opts := getOptions options in
  let filters := getFilters opts in
  scoreThreshold <- lift (getScoreThreshold opts) ;;
  vector <- lift (callEmbedQuery (FlatScheme.embedder s) query) ;;
  FlatScheme.restQuery E s vector numDocuments (FlatScheme.collectionName s)
    scoreThreshold filters.

Definition upsertRequest (s : FlatScheme.Store) (collection : string)
    (points : list point) : Request :=
  {| reqMethod := MethodPut;
     reqURL := FlatScheme.getEndpoint (FlatScheme.baseURL s) collection "/points";
     reqApiKey := FlatScheme.apiKey s;
     reqBody := UpsertBody points |}.

End FlatOps.

(** The API key and the base URL [applyClientOptions] settles on: the
    option when it is not empty, else the environment variable. *)
Definition effectiveApiKey (E : Env) (o : Store) : string :=
  if isEmpty (apiKey o) then getenv E _qdrantKeyEnvVarName else apiKey o.

Definition effectiveBaseURL (E : Env) (o : Store) : string :=
  if isEmpty (baseURL o) then getenv E _qdrantURLEnvVarName else baseURL o.

(** No option of the list sets the content key, or the metadata key. *)
Definition setsContentKey (opt : Option) : bool :=
  match opt with WithContentKey _ => true | _ => false end.

Definition setsMetadataKey (opt : Option) : bool :=
  match opt with WithMetadataKey _ => true | _ => false end.

(** * More concrete data *)

(** An index whose scroll response has no result. *)
Definition noResultEnv : Env :=
  fixedEnv (inr (StatusOK,
                 scrollBody {| scTime := f32_zero; scStatus := "ok";
                               scResult := None |})).

(** A threshold above one. *)
Definition f32_two : float32 := S754_finite false 8388608 (-22).

Definition brazilFilter : any :=
  NewMustEqualFilter exampleStore
    [ {| Key := "country"; Values := Some [AString "Brazil"] |} ].

Definition flatSingleStore : FlatScheme.Store :=
  FlatOps.applyOption (FlatOps.WithEmbedder (Some singleEmbedder)) exampleFlatStore.

(** A document whose metadata use the text key of the earlier generation. *)
Definition shadowedDocument : Document :=
  {| PageContent := "Tokyo";
     Metadata := Some {[ "text" := AString "a caption"; "country" := AString "Japan" ]};
     Score := f32_zero |}.
(** * Properties *)

(** ** The decoding loops *)
Section DecodeLoop.
Context {A : Type} (decode : A -> outcome Document) (keep : A -> bool).
Local Abbreviation decodeLoop := (decodeLoop decode keep).
Local Abbreviation decodes := (decodes decode).

Lemma decodeLoop_app (ps qs : list A) (docs : list Document) :
  decodeLoop (ps ++ qs) docs =
  match decodeLoop ps docs with
  | Ok docs' => decodeLoop qs docs'
  | Err e => Err e
  | Panic x => Panic x
  end.
Proof.
  revert docs. induction ps as [|p ps IH]; intros docs; simpl; [done|].
  destruct (decode p); auto.
Qed.

Lemma decodeLoop_ok (points : list A) (docs out : list Document) :
  decodeLoop points docs = Ok out ->
  exists new, out = docs ++ new
    /\ Forall2 (fun p d => decode p = Ok d) (List.filter keep points) new
    /\ Forall decodes points.
Proof.
  revert docs. induction points as [|p ps IH]; intros docs; simpl.
  - intros [= <-]. exists []. by rewrite app_nil_r.
  - destruct (decode p) as [d| |] eqn:Hd; try done.
    intros (new & -> & Hnew & Hall)%IH.
    destruct (keep p).
    + exists (d :: new). rewrite <- app_assoc. repeat split; auto.
      constructor; [by exists d|done].
    + exists new. repeat split; auto. constructor; [by exists d|done].
Qed.

Lemma decodeLoop_total (points : list A) (docs : list Document) :
  Forall decodes points -> exists new, decodeLoop points docs = Ok (docs ++ new).
Proof.
  intros Hall. revert docs.
  induction Hall as [|p ps [d Hd] _ IH]; intros docs; simpl.
  - exists []. by rewrite app_nil_r.
  - rewrite Hd. destruct (keep p).
    + destruct (IH (docs ++ [d])) as [new ->].
      exists (d :: new). by rewrite <- app_assoc.
    + apply IH.
Qed.


End DecodeLoop.

Lemma queryLoop_decodeLoop (s : Store) (t : float32) (result : list scoredPoint)
    (docs : list Document) :
  queryLoop s t result docs =
  decodeLoop (decodeScored s) (fun p => keeps t (spScore p)) result docs.
Proof.
  revert docs. induction result as [|p ps IH]; intros docs; simpl; [done|].
  destruct (decodeScored s p); auto.
Qed.

Lemma flat_queryLoop_decodeLoop (s : FlatScheme.Store) (t : float32)
    (result : list scoredPoint) (docs : list Document) :
  FlatScheme.queryLoop s t result docs =
  decodeLoop (FlatScheme.decodeScored s) (fun p => keeps t (spScore p)) result docs.
Proof.
  revert docs. induction result as [|p ps IH]; intros docs; simpl; [done|].
  destruct (FlatScheme.decodeScored s p); auto.
Qed.

Lemma scrollLoop_decodeLoop (s : Store) (points : list point) (docs : list Document) :
  scrollLoop s points docs = decodeLoop (decodePoint s) (fun _ => true) points docs.
Proof.
  revert docs. induction points as [|p ps IH]; intros docs; simpl; [done|].
  destruct (decodePoint s p); auto.
Qed.

(** The threshold test of the code is the one the specification words. *)
Lemma keeps_spec (t x : float32) : keeps t x = f32_eq t f32_zero || f32_ge x t.
Proof.
  unfold keeps, f32_ne, f32_eq.
  destruct (SFeqb t f32_zero), (f32_ge x t); reflexivity.
Qed.

Lemma filter_keeps (t : float32) (result : list scoredPoint) :
  List.filter (fun p => keeps t (spScore p)) result =
  List.filter (fun p => f32_eq t f32_zero || f32_ge (spScore p) t) result.
Proof.
  induction result as [|p ps IH]; simpl; [done|]. by rewrite keeps_spec, IH.
Qed.

Lemma filter_all {A} (f : A -> bool) (l : list A) :
  (forall x, f x = true) -> List.filter f l = l.
Proof. intros H. induction l as [|x l IH]; simpl; [done|]. by rewrite H, IH. Qed.


(** ** After a successful exchange *)

Lemma restQuery_200 E s vector n coll t filter w w' body :
  searchExchange E s vector n coll t filter w = (Ok (body, StatusOK), w') ->
  restQuery E s vector n coll t filter w = (queryDocuments s t body, w').
Proof.
  unfold searchExchange, restQuery, bind. intros ->. reflexivity.
Qed.

Lemma flat_restQuery_200 E s vector n coll t filter w w' body :
  flatSearchExchange E s vector n coll t filter w = (Ok (body, StatusOK), w') ->
  FlatScheme.restQuery E s vector n coll t filter w
  = (FlatScheme.queryDocuments s t body, w').
Proof.
  unfold flatSearchExchange, FlatScheme.restQuery, bind. intros ->. reflexivity.
Qed.

Lemma restScrollPoints_200 E s coll req w w' body :
  scrollExchange E s coll req w = (Ok (body, StatusOK), w') ->
  restScrollPoints E s coll req w = (scrollDocuments s body, w').
Proof.
  unfold scrollExchange, restScrollPoints, bind. intros ->. reflexivity.
Qed.

Lemma queryDocuments_nonempty s t body response :
  decodeQueries body = inr response ->
  qrResult response <> [] ->
  queryDocuments s t body =
  decodeLoop (decodeScored s) (fun p => keeps t (spScore p)) (qrResult response) [].
Proof.
  intros Hb Hne. unfold queryDocuments. rewrite Hb.
  destruct (qrResult response) as [|p ps] eqn:Hr; [done|].
  rewrite bool_decide_eq_false_2 by done. apply queryLoop_decodeLoop.
Qed.

Lemma flat_queryDocuments_nonempty s t body response :
  decodeQueries body = inr response ->
  qrResult response <> [] ->
  FlatScheme.queryDocuments s t body =
  decodeLoop (FlatScheme.decodeScored s) (fun p => keeps t (spScore p))
    (qrResult response) [].
Proof.
  intros Hb Hne. unfold FlatScheme.queryDocuments. rewrite Hb.
  destruct (qrResult response) as [|p ps] eqn:Hr; [done|].
  rewrite bool_decide_eq_false_2 by done. apply flat_queryLoop_decodeLoop.
Qed.





(** ** Empty raw result versus empty filtered result *)



(** ** The score threshold *)

Lemma decodeLoop_filtered {A} (decode : A -> outcome Document) (keep keep' : A -> bool)
    (points : list A) (out : outcome (list Document)) :
  (forall p, keep p = keep' p) ->
  out = decodeLoop decode keep points [] ->
  (forall docs, out = Ok docs ->
     Forall2 (fun p d => decode p = Ok d) (List.filter keep' points) docs)
  /\ (Forall (decodes decode) points -> exists docs, out = Ok docs).
Proof.
  intros Hk ->. split.
  - intros docs (new & -> & Hnew & _)%decodeLoop_ok. simpl.
    by rewrite <- (filter_ext _ _ Hk).
  - intros Hall. by destruct (decodeLoop_total decode keep points [] Hall) as [new ->];
      eexists.
Qed.

(** C3.  For a non-empty raw result and any threshold (so any in [0,1]):
    the documents [restQuery] returns are, in the order of the index, the
    decodings of exactly the points with [threshold == 0] or
    [score >= threshold]; it does return when every point decodes; and with
    [threshold == 0] those points are all the points.  The same holds for
    the [restQuery] of the earlier, flat-key generation. *)
Theorem restQuery_threshold E vector n coll t filter w w' body response :
  decodeQueries body = inr response ->
  qrResult response <> [] ->
  let kept :=
    List.filter (fun p => f32_eq t f32_zero || f32_ge (spScore p) t)
                (qrResult response) in
  (f32_eq t f32_zero = true -> kept = qrResult response)
  /\ (forall s : Store,
        searchExchange E s vector n coll t filter w = (Ok (body, StatusOK), w') ->
        (forall docs,
            fst (restQuery E s vector n coll t filter w) = Ok docs ->
            Forall2 (fun p d => decodeScored s p = Ok d) kept docs)
        /\ (Forall (decodes (decodeScored s)) (qrResult response) ->
            exists docs, fst (restQuery E s vector n coll t filter w) = Ok docs))
  /\ (forall s : FlatScheme.Store,
        flatSearchExchange E s vector n coll t filter w = (Ok (body, StatusOK), w') ->
        (forall docs,
            fst (FlatScheme.restQuery E s vector n coll t filter w) = Ok docs ->
            Forall2 (fun p d => FlatScheme.decodeScored s p = Ok d) kept docs)
        /\ (Forall (decodes (FlatScheme.decodeScored s)) (qrResult response) ->
            exists docs,
              fst (FlatScheme.restQuery E s vector n coll t filter w) = Ok docs)).
Proof.
  intros Hb Hne kept. split; [|split].
  - intros Ht. apply filter_all. intros p. by rewrite Ht.
  - intros s Hx. rewrite (restQuery_200 _ _ _ _ _ _ _ _ _ _ Hx). simpl.
    apply (decodeLoop_filtered _ (fun p => keeps t (spScore p))).
    + intros p. apply keeps_spec.
    + by apply queryDocuments_nonempty.
  - intros s Hx. rewrite (flat_restQuery_200 _ _ _ _ _ _ _ _ _ _ Hx). simpl.
    apply (decodeLoop_filtered _ (fun p => keeps t (spScore p))).
    + intros p. apply keeps_spec.
    + by apply flat_queryDocuments_nonempty.
Qed.

Lemma restQuery_threshold_witness :
  (forall docs,
      fst (restQuery (searchEnv [paris; tokyo; paris]) exampleStore [] 3%Z "cities"
             f32_three_quarters ANil newWorld) = Ok docs ->
      Forall2 (fun p d => decodeScored exampleStore p = Ok d) [tokyo] docs)
  /\ (forall docs,
      fst (FlatScheme.restQuery (searchEnv [flatParis; flatTokyo]) exampleFlatStore
             [] 3%Z "cities" f32_zero ANil newWorld) = Ok docs ->
      Forall2 (fun p d => FlatScheme.decodeScored exampleFlatStore p = Ok d)
              [flatParis; flatTokyo] docs).
Proof.
  split.
  - destruct (restQuery_threshold (searchEnv [paris; tokyo; paris]) [] 3%Z "cities"
                 f32_three_quarters ANil newWorld
                 (snd (searchExchange (searchEnv [paris; tokyo; paris]) exampleStore
                         [] 3%Z "cities" f32_three_quarters ANil newWorld))
                 (searchBody (searchResponse [paris; tokyo; paris]))
                 (searchResponse [paris; tokyo; paris]) eq_refl)
      as (_ & Hnested & _); [discriminate|].
    destruct (Hnested exampleStore eq_refl) as [H _]. exact H.
  - destruct (restQuery_threshold (searchEnv [flatParis; flatTokyo]) [] 3%Z "cities"
                 f32_zero ANil newWorld
                 (snd (flatSearchExchange (searchEnv [flatParis; flatTokyo])
                         exampleFlatStore [] 3%Z "cities" f32_zero ANil newWorld))
                 (searchBody (searchResponse [flatParis; flatTokyo]))
                 (searchResponse [flatParis; flatTokyo]) eq_refl)
      as (_ & _ & Hflat); [discriminate|].
    destruct (Hflat exampleFlatStore eq_refl) as [H _]. exact H.
Defined.

Example restQuery_threshold_run :
  fst (restQuery (searchEnv [paris; tokyo; paris]) exampleStore [] 3%Z "cities"
         f32_three_quarters ANil newWorld)
  = Ok [ {| PageContent := "Tokyo"; Metadata := country "Japan";
            Score := f32_three_quarters |} ].
Proof. vm_compute. reflexivity. Qed.

(** ** The content key *)





Lemma scrollDocuments_points s body response result :
  decodeScroll body = inr response ->
  scResult response = Some result ->
  scrollDocuments s body =
  match decodeLoop (decodePoint s) (fun _ => true) (srPoints result) [] with
  | Ok docs => Ok (docs, default "" (srNextPageOffset result))
  | Err e => Err e
  | Panic x => Panic x
  end.
Proof.
  intros Hb Hr. unfold scrollDocuments. rewrite Hb, Hr, scrollLoop_decodeLoop.
  destruct (decodeLoop _ _ _ _); [|done..]. by destruct (srNextPageOffset result).
Qed.



(** ** The metadata key *)

Lemma decodeScored_metadata s p c :
  mapIndex (spPayload p) (contentKey s) = AString c ->
  assertMap (mapIndex (spPayload p) (metadataKey s)) = None ->
  decodeScored s p = Panic InterfaceConversion.
Proof. unfold decodeScored. by intros -> ->. Qed.

Lemma decodePoint_metadata s p c :
  mapIndex (pPayload p) (contentKey s) = AString c ->
  assertMap (mapIndex (pPayload p) (metadataKey s)) = None ->
  decodePoint s p = Panic InterfaceConversion.
Proof. unfold decodePoint. by intros -> ->. Qed.

(** C10.  The claim fails: a search response whose point holds its text
    but no mapping under the metadata key makes [SimilaritySearch] panic in
    the unchecked type assertion, and a scroll response does the same to
    [restScrollPoints]. *)
Theorem SimilaritySearch_metadata_panic :
  fst (SimilaritySearch (searchEnv [bare]) exampleStore "japan" 1 [] newWorld)
  = Panic InterfaceConversion
  /\ fst (restScrollPoints (scrollEnv [stored barePayload] None) exampleStore
            "cities" None newWorld)
     = Panic InterfaceConversion.
Proof. split; vm_compute; reflexivity. Qed.

(** ** The payload codec *)

Lemma encodePayload_content s text md :
  contentKey s <> metadataKey s ->
  mapIndex (encodePayload s text md) (contentKey s) = AString text.
Proof.
  intros Hne. unfold encodePayload, mapIndex.
  by rewrite lookup_insert_ne, lookup_insert_eq.
Qed.

Lemma encodePayload_metadata s text md :
  mapIndex (encodePayload s text md) (metadataKey s) = AMap md.
Proof. unfold encodePayload, mapIndex. by rewrite lookup_insert_eq. Qed.




(** With one name for both keys no point built by [encode] can be decoded,
    whatever the document. *)
Lemma encode_key_clash (s : Store) (id : string) (d : Document) (v : Vector)
    (score : float32) (version : Z) :
  contentKey s = metadataKey s ->
  decodeScored s (asScored score version (encode s id d v)) = Err ErrMissingTextKey
  /\ decodePoint s (encode s id d v) = Err ErrMissingTextKey.
Proof.
  intros Heq.
  assert (mapIndex (encodePayload s (PageContent d) (Metadata d)) (contentKey s)
          = AMap (Metadata d)) as Hc.
  { rewrite Heq. apply encodePayload_metadata. }
  unfold decodeScored, decodePoint, asScored, encode.
  cbn [spPayload pPayload spScore]. by rewrite Hc.
Qed.

(** ** Scroll *)

Lemma decodeLoop_from_empty {A} (decode : A -> outcome Document) (keep : A -> bool)
    (points : list A) (docs new : list Document) :
  decodeLoop decode keep points [] = Ok new ->
  decodeLoop decode keep points docs = Ok (docs ++ new).
Proof.
  intros H. pose proof H as (new' & Heq & _ & Hall)%decodeLoop_ok.
  simpl in Heq. subst new'.
  destruct (decodeLoop_total decode keep points docs Hall) as [new2 H2].
  rewrite H2. f_equal. f_equal.
  apply decodeLoop_ok in H as (n1 & E1 & F1 & _).
  apply decodeLoop_ok in H2 as (n2 & E2 & F2 & _).
  simpl in E1. subst n1. apply app_inv_head in E2. subst n2.
  revert F1 F2. generalize (List.filter keep points).
  intros l. revert new new2.
  induction l as [|p l IH]; intros new new2 F1 F2;
    inversion F1; inversion F2; subst; [done|].
  f_equal; [congruence|]. by apply IH.
Qed.

(** Decoding page after page is decoding the pages laid end to end. *)
Lemma scrollLoop_concat (s : Store) (pages : list (list point))
    (outs : list (list Document)) :
  Forall2 (fun points docs => scrollLoop s points [] = Ok docs) pages outs ->
  scrollLoop s (concat pages) [] = Ok (concat outs).
Proof.
  induction 1 as [|points docs pages outs Hp _ IH]; simpl; [done|].
  rewrite scrollLoop_decodeLoop in *.
  rewrite decodeLoop_app, Hp.
  by apply decodeLoop_from_empty.
Qed.

Lemma restScrollPoints_decoded E s coll req w w' body response result :
  scrollExchange E s coll req w = (Ok (body, StatusOK), w') ->
  decodeScroll body = inr response ->
  scResult response = Some result ->
  Forall (decodes (decodePoint s)) (srPoints result) ->
  exists docs,
    restScrollPoints E s coll req w
    = (Ok (docs, default "" (srNextPageOffset result)), w')
    /\ scrollLoop s (srPoints result) [] = Ok docs
    /\ Forall2 (fun p d => decodePoint s p = Ok d) (srPoints result) docs.
Proof.
  intros Hx Hb Hres Hall.
  rewrite (restScrollPoints_200 _ _ _ _ _ _ _ Hx).
  rewrite (scrollDocuments_points _ _ _ _ Hb Hres), scrollLoop_decodeLoop.
  destruct (decodeLoop_total (decodePoint s) (fun _ => true) (srPoints result) [] Hall)
    as [docs Hdocs].
  rewrite Hdocs. exists docs. repeat split.
  apply decodeLoop_ok in Hdocs as (new & Heq & Hf & _). simpl in Heq. subst new.
  by rewrite filter_all in Hf.
Qed.

(** C9, as amended.  A scroll whose exchange succeeds with status 200 and
    whose points all decode returns one document per point, in the order of
    the index, and as cursor the next-page offset of the response, or the
    empty string when there is none; so the cursor is empty exactly when
    the response carries no offset or the empty one.  Over any sequence of
    such calls the documents returned, laid end to end, are the decodings of
    all the points returned, in order. *)
Theorem restScrollPoints_page E s coll :
  (forall req w result,
      goodPage E s coll (req, w) result ->
      exists docs cursor,
        fst (restScrollPoints E s coll req w) = Ok (docs, cursor)
        /\ Forall2 (fun p d => decodePoint s p = Ok d) (srPoints result) docs
        /\ (forall offset, srNextPageOffset result = Some offset -> cursor = offset)
        /\ (srNextPageOffset result = None -> cursor = "")
        /\ (cursor = "" <->
            srNextPageOffset result = None \/ srNextPageOffset result = Some ""))
  /\ (forall calls results,
      Forall2 (goodPage E s coll) calls results ->
      exists outs,
        Forall2 (fun call out =>
                   fst (restScrollPoints E s coll (fst call) (snd call)) = Ok out)
                calls outs
        /\ Forall2 (fun p d => decodePoint s p = Ok d)
                   (concat (map srPoints results)) (concat (map fst outs))).
Proof.
  split.
  - intros req w result (w' & body & response & Hx & Hb & Hres & Hall).
    simpl in Hx.
    destruct (restScrollPoints_decoded _ _ _ _ _ _ _ _ _ Hx Hb Hres Hall)
      as (docs & Hrun & _ & Hdocs).
    exists docs, (default "" (srNextPageOffset result)).
    rewrite Hrun. repeat split; auto.
    + by intros offset ->.
    + by intros ->.
    + destruct (srNextPageOffset result) as [offset|]; simpl; [|by left].
      intros ->. by right.
    + by intros [-> | ->].
  - induction 1 as [|[req w] result calls results Hgood _ IH].
    + exists []. split; constructor.
    + destruct IH as (outs & Houts & Hcat).
      destruct Hgood as (w' & body & response & Hx & Hb & Hres & Hall).
      simpl in Hx.
      destruct (restScrollPoints_decoded _ _ _ _ _ _ _ _ _ Hx Hb Hres Hall)
        as (docs & Hrun & _ & Hdocs).
      exists ((docs, default "" (srNextPageOffset result)) :: outs). split.
      * constructor; [simpl; by rewrite Hrun|done].
      * simpl. by apply Forall2_app.
Qed.

Lemma restScrollPoints_page_witness :
  exists outs,
    Forall2 (fun call out =>
               fst (restScrollPoints pagingEnv exampleStore "cities"
                      (fst call) (snd call)) = Ok out)
            [firstCall; secondCall] outs
    /\ Forall2 (fun p d => decodePoint exampleStore p = Ok d)
               [stored (cityPayload "Tokyo" "Japan"); stored (cityPayload "Paris" "France")]
               (concat (map fst outs)).
Proof.
  apply (proj2 (restScrollPoints_page pagingEnv exampleStore "cities")
           [firstCall; secondCall] [firstPage; lastPage]).
  repeat constructor.
  - exists (snd (scrollExchange pagingEnv exampleStore "cities"
                   (fst firstCall) (snd firstCall))),
           (scrollBody (pageResponse firstPage)), (pageResponse firstPage).
    repeat split; try reflexivity. repeat constructor. by eexists.
  - exists (snd (scrollExchange pagingEnv exampleStore "cities"
                   (fst secondCall) (snd secondCall))),
           (scrollBody (pageResponse lastPage)), (pageResponse lastPage).
    repeat split; try reflexivity. repeat constructor. by eexists.
Defined.

Example scroll_two_pages :
  fst (restScrollPoints pagingEnv exampleStore "cities" (fst firstCall) (snd firstCall))
  = Ok ([ {| PageContent := "Tokyo"; Metadata := country "Japan"; Score := f32_zero |} ],
        "8a1f3c52")
  /\ fst (restScrollPoints pagingEnv exampleStore "cities" (fst secondCall) (snd secondCall))
     = Ok ([ {| PageContent := "Paris"; Metadata := country "France"; Score := f32_zero |} ],
           "").
Proof. split; vm_compute; reflexivity. Qed.

(** C9 as stated fails: an exchange that succeeds with status 200 returns
    no documents when a point lacks its text, and the cursor is empty for a
    response that does carry an offset, the empty one. *)
Lemma restScrollPoints_page_counterexample :
  fst (restScrollPoints (scrollEnv [stored untitledPayload] (Some "8a1f3c52"))
         exampleStore "cities" None newWorld)
  = Err ErrMissingTextKey
  /\ fst (restScrollPoints (scrollEnv [stored (cityPayload "Tokyo" "Japan")] (Some ""))
            exampleStore "cities" None newWorld)
     = Ok ([ {| PageContent := "Tokyo"; Metadata := country "Japan"; Score := f32_zero |} ],
           "").
Proof. split; vm_compute; reflexivity. Qed.

(** ** Construction *)

Lemma errors_Is_wrapped (suffix : string) :
  errors_Is (Wrapf ErrInvalidOptions suffix) ErrInvalidOptions = true.
Proof.
  simpl. destruct (decide (Wrapf ErrInvalidOptions suffix = ErrInvalidOptions));
    [done|]. by destruct (decide (ErrInvalidOptions = ErrInvalidOptions)).
Qed.

Lemma isEmpty_true (x : string) : isEmpty x = true <-> x = "".
Proof. unfold isEmpty. apply bool_decide_eq_true. Qed.

Lemma applyClientOptions_invalid E opts :
  embedder (applyOptions opts initialStore) = None
  \/ (baseURL (applyOptions opts initialStore) = ""
      /\ getenv E _qdrantURLEnvVarName = "") ->
  exists err,
    applyClientOptions E opts = (zeroStore, Some err)
    /\ errors_Is err ErrInvalidOptions = true.
Proof.
  intros H. unfold applyClientOptions.
  set (o := applyOptions opts initialStore) in *.
  destruct (embedder o) as [e|] eqn:He.
  2: { eexists. split; [reflexivity|apply errors_Is_wrapped]. }
  destruct H as [H|[Hurl Henv]]; [done|].
  assert (forall k, baseURL (setApiKey o k) = baseURL o) as Hkeep by done.
  destruct (isEmpty (apiKey o)).
  - destruct (useCloud _ && isEmpty _).
    + eexists. split; [reflexivity|apply errors_Is_wrapped].
    + rewrite Hkeep, Hurl. simpl isEmpty at 1. cbv iota.
      unfold setBaseURL. simpl baseURL. rewrite Henv. simpl.
      eexists. split; [reflexivity|apply errors_Is_wrapped].
  - rewrite Hurl. simpl isEmpty at 1. cbv iota.
    unfold setBaseURL. simpl baseURL. rewrite Henv. simpl.
    eexists. split; [reflexivity|apply errors_Is_wrapped].
Qed.

(** C6.  Without an embedder, or without a base URL in the options and in
    the environment, [New] returns the zero store and an error that wraps
    [ErrInvalidOptions], and the world is as before the call: no request
    was sent. *)
Theorem New_invalid_options E opts w :
  embedder (applyOptions opts initialStore) = None
  \/ (baseURL (applyOptions opts initialStore) = ""
      /\ getenv E _qdrantURLEnvVarName = "") ->
  exists err,
    New E opts w = (Ok (zeroStore, Some err), w)
    /\ errors_Is err ErrInvalidOptions = true
    /\ requests (snd (New E opts w)) = requests w.
Proof.
  intros (err & Happly & His)%(applyClientOptions_invalid E).
  exists err. unfold New. rewrite Happly. by repeat split.
Qed.

Lemma New_invalid_options_witness :
  (exists err,
      New downEnv [WithBaseURL "http://localhost:6333"; WithCollectionName "cities"]
        newWorld = (Ok (zeroStore, Some err), newWorld)
      /\ errors_Is err ErrInvalidOptions = true
      /\ requests (snd (New downEnv
                          [WithBaseURL "http://localhost:6333";
                           WithCollectionName "cities"] newWorld))
         = requests newWorld)
  /\ (exists err,
      New downEnv [WithEmbedder (Some NilEmbedder); WithCollectionName "cities"]
        newWorld = (Ok (zeroStore, Some err), newWorld)
      /\ errors_Is err ErrInvalidOptions = true
      /\ requests (snd (New downEnv
                          [WithEmbedder (Some NilEmbedder);
                           WithCollectionName "cities"] newWorld))
         = requests newWorld).
Proof.
  split.
  - apply (New_invalid_options downEnv
             [WithBaseURL "http://localhost:6333"; WithCollectionName "cities"] newWorld).
    left. reflexivity.
  - apply (New_invalid_options downEnv
             [WithEmbedder (Some NilEmbedder); WithCollectionName "cities"] newWorld).
    right. split; reflexivity.
Defined.

(** ** Provisioning *)

(** A call of the shape shared by the provisioning functions, its error
    dropped: it does not fail, and it sends its request when the
    environment lets it through. *)
Lemma discard_exchange E payload url key method task w :
  let call :=
    (r <- doRequest E payload url key method ;;
     if bool_decide (snd r = StatusOK) then ret tt
     else fail (newAPIError task (fst r)))%go in
  let req := {| reqMethod := method; reqURL := url; reqApiKey := key;
                reqBody := payload |} in
  fst (discard call w) = Ok tt
  /\ (jsonMarshal E payload = None -> newRequest E method url = None ->
      snd (discard call w) = recordRequest req w).
Proof.
  unfold discard, bind, doRequest. simpl.
  destruct (jsonMarshal E payload); [by split|].
  destruct (newRequest E method url); [by split|].
  destruct (httpDo E (requests w) _) as [e|[status body]]; simpl; [by split|].
  destruct (bool_decide (status = StatusOK)); by split.
Qed.

Lemma indexAll_discards E s keys w :
  fst (indexAll E s keys w) = Ok tt
  /\ (alwaysSends E ->
      requests (snd (indexAll E s keys w)) = requests w ++ map (indexRequest s) keys).
Proof.
  revert w. induction keys as [|k keys IH]; intros w; simpl.
  - split; [done|]. intros _. by rewrite app_nil_r.
  - unfold bind.
    destruct (discard_exchange E
                (IndexBody {[ "field_name" := k; "field_schema" := "keyword" ]})
                (getEndpoint (baseURL s) (collectionName s) "/index") (apiKey s)
                MethodPut "indexing metadata key" w) as [Hok Hsend].
    fold (restIndexMetadataKey E s (collectionName s) k) in Hok, Hsend.
    destruct (discard (restIndexMetadataKey E s (collectionName s) k) w)
      as [[[]|e|p] w1] eqn:Hd; simpl in Hok; try done.
    destruct (IH w1) as [IHok IHsend]. split; [done|].
    intros Hall. rewrite (IHsend Hall).
    destruct Hall as [Hm Hn]. simpl in Hsend. rewrite (Hsend (Hm _) (Hn _ _)).
    simpl. by rewrite <- app_assoc.
Qed.

(** C8.  Once the options are valid, [New] returns the configured store and
    the nil error whatever the index answers to the creation of the
    collection and to the indexing of the keys; the requests are sent (when
    the environment lets them through) and what comes back is dropped. *)
Theorem New_discards_provisioning_errors E opts w s :
  applyClientOptions E opts = (s, None) ->
  fst (New E opts w) = Ok (s, None)
  /\ (alwaysSends E ->
      requests (snd (New E opts w))
      = requests w ++ collectionRequest s :: map (indexRequest s) (indexKeys s)).
Proof.
  intros Happly. unfold New. rewrite Happly. unfold bind.
  destruct (discard_exchange E
              (CollectionBody (<["name" := AString (collectionName s)]>
                                 (default ∅ (collectionConfig s))))
              (getEndpoint (baseURL s) (collectionName s) "") (apiKey s)
              MethodPut "creating collection" w) as [Hok Hsend].
  fold (restNewCollection E s (collectionName s)) in Hok, Hsend.
  destruct (discard (restNewCollection E s (collectionName s)) w)
    as [[[]|e|p] w1] eqn:Hd; simpl in Hok; try done.
  destruct (indexAll_discards E s (indexKeys s) w1) as [Hiok Hisend].
  destruct (indexAll E s (indexKeys s) w1) as [[[]|e|p] w2] eqn:Hi;
    simpl in Hiok; try done.
  split; [done|]. intros Hall. simpl in *. rewrite (Hisend Hall).
  destruct Hall as [Hm Hn]. rewrite (Hsend (Hm _) (Hn _ _)).
  simpl. by rewrite <- app_assoc.
Qed.

Lemma New_discards_provisioning_errors_witness :
  fst (New downEnv exampleOptions newWorld) = Ok (exampleStore, None)
  /\ fst (New refusingEnv exampleOptions newWorld) = Ok (exampleStore, None)
  /\ requests (snd (New refusingEnv exampleOptions newWorld))
     = [collectionRequest exampleStore; indexRequest exampleStore "country"].
Proof.
  split; [|split].
  - apply (New_discards_provisioning_errors downEnv exampleOptions newWorld exampleStore).
    reflexivity.
  - apply (New_discards_provisioning_errors refusingEnv exampleOptions newWorld
             exampleStore).
    reflexivity.
  - apply (proj2 (New_discards_provisioning_errors refusingEnv exampleOptions newWorld
                    exampleStore eq_refl)).
    by split.
Defined.

(** ** The number of vectors *)

(** C4, as amended.  When the embedder configured in the store is not a
    [NilEmbedder], the call of the embedder in use succeeds and the number
    of vectors differs from the number of documents, [AddDocuments] fails
    with [ErrEmbedderWrongNumberVectors] and leaves the world as it was: no
    request is sent and no UUID is drawn.  The embedder receives one text
    per document. *)
Theorem AddDocuments_vector_count E s docs options w vectors :
  isNilEmbedder (embedder s) = false ->
  callEmbedDocuments (getEmbedder s (getOptions options)) (map PageContent docs)
  = Ok vectors ->
  length vectors <> length docs ->
  AddDocuments E s docs options w = (Err ErrEmbedderWrongNumberVectors, w)
  /\ length (map PageContent docs) = length docs.
Proof.
  intros Hnil Hcall Hlen. split; [|apply length_map].
  unfold AddDocuments, bind, lift. rewrite Hcall, Hnil.
  by rewrite bool_decide_eq_false_2.
Qed.

Lemma AddDocuments_vector_count_witness :
  AddDocuments okEnv singleStore [tokyoDocument; parisDocument] [] newWorld
  = (Err ErrEmbedderWrongNumberVectors, newWorld)
  /\ length (map PageContent [tokyoDocument; parisDocument]) = 2.
Proof.
  apply (AddDocuments_vector_count okEnv singleStore [tokyoDocument; parisDocument] []
           newWorld [[f32_half]]).
  - reflexivity.
  - reflexivity.
  - simpl. lia.
Defined.

(** C4 as stated fails: in a store configured with a [NilEmbedder] the
    count is not checked, so a per-call embedder that returns no vector for
    one document leads to an upsert of no point, which succeeds. *)
Lemma AddDocuments_vector_count_counterexample :
  callEmbedDocuments
    (getEmbedder exampleStore (getOptions [WithCallEmbedder silentEmbedder]))
    (map PageContent [tokyoDocument]) = Ok []
  /\ AddDocuments okEnv exampleStore [tokyoDocument] [WithCallEmbedder silentEmbedder]
       newWorld
     = (Ok tt, {| requests := [upsertRequest exampleStore "cities" []];
                  uuidsDrawn := 0 |}).
Proof. split; vm_compute; reflexivity. Qed.

(** ** Point IDs *)

Lemma pointID_reused fresh md id :
  mapIndex md "__point_id" = AString id -> pointID fresh md = Ok id.
Proof.
  unfold pointID. intros H. rewrite H. destruct md; [done|]. discriminate.
Qed.

Lemma pointID_fresh fresh md :
  mapIndex md "__point_id" = ANil -> pointID fresh md = Ok fresh.
Proof.
  unfold pointID. intros H. rewrite H. simpl. by rewrite andb_false_r.
Qed.

Lemma pointID_other fresh md :
  ~ pointIDUsable md -> pointID fresh md = Panic InterfaceConversion.
Proof.
  unfold pointIDUsable, pointID. intros H.
  destruct md as [g|]; [|destruct H; by left].
  destruct (mapIndex (Some g) "__point_id") eqn:Hv; simpl; try done.
  - destruct H. by left.
  - destruct H. right. by eexists.
Qed.

Lemma index_lookup {A} (xs : list A) (i : nat) (w : World) :
  index xs i w = match xs !! i with
                 | Some x => (Ok x, w)
                 | None => (Panic IndexOutOfRange, w)
                 end.
Proof. unfold index. by destruct (xs !! i). Qed.

(** What the loop of [restUpsert] has built when it ends without a panic. *)
Lemma upsertLoop_spec E s texts mds vectors :
  forall i v w pts w',
    upsertLoop E s texts mds i vectors v w = (Ok pts, w') ->
    requests w' = requests w
    /\ uuidsDrawn w' = (uuidsDrawn w + length vectors)%nat
    /\ exists new,
        pts = v ++ new
        /\ length new = length vectors
        /\ forall j pt, new !! j = Some pt ->
             exists vec md text,
               vectors !! j = Some vec
               /\ mds !! (i + j)%nat = Some md
               /\ texts !! (i + j)%nat = Some text
               /\ pointID (uuidNew E (uuidsDrawn w + j)%nat) md = Ok (pID pt)
               /\ pt = encode s (pID pt)
                         {| PageContent := text; Metadata := md; Score := f32_zero |}
                         vec.
Proof.
  induction vectors as [|vec rest IH]; intros i v w pts w'; simpl.
  - intros [= <- <-]. repeat split; [lia|]. exists [].
    rewrite app_nil_r. repeat split. intros j pt Hj. by rewrite lookup_nil in Hj.
  - unfold bind at 1. unfold uuidNewString at 1.
    unfold bind at 1. rewrite index_lookup.
    destruct (mds !! i) as [md|] eqn:Hmd; [|done].
    unfold bind at 1. unfold lift at 1.
    destruct (pointID _ md) as [id| |] eqn:Hid; try done.
    unfold bind at 1. rewrite index_lookup.
    destruct (texts !! i) as [text|] eqn:Htext; [|done].
    intros (Hreq & Hdrawn & new & -> & Hlen & Hnew)%IH. simpl in *.
    repeat split; [done|lia|].
    exists ({| pVector := vec; pPayload := encodePayload s text md; pID := id |} :: new).
    rewrite <- app_assoc. repeat split; [simpl; lia|].
    intros [|j] pt Hj; simpl in Hj.
    + injection Hj as <-. exists vec, md, text.
      rewrite !Nat.add_0_r. by repeat split.
    + destruct (Hnew j pt Hj) as (vec' & md' & text' & H1 & H2 & H3 & H4 & H5).
      exists vec', md', text'.
      replace (i + S j)%nat with (S i + j)%nat by lia.
      replace (uuidsDrawn w + S j)%nat with (S (uuidsDrawn w) + j)%nat by lia.
      by repeat split.
Qed.

(** The loop ends without a panic when the texts and the metadata reach as
    far as the vectors and every ["__point_id"] is nil or a string. *)
Lemma upsertLoop_total E s texts mds vectors :
  forall i v w,
    (i + length vectors <= length mds)%nat ->
    (i + length vectors <= length texts)%nat ->
    (forall j md, (j < length vectors)%nat -> mds !! (i + j)%nat = Some md ->
                  pointIDUsable md) ->
    exists pts w', upsertLoop E s texts mds i vectors v w = (Ok pts, w').
Proof.
  induction vectors as [|vec rest IH]; intros i v w Hm Ht Hids; simpl in *.
  - by eexists _, _.
  - unfold bind at 1. unfold uuidNewString at 1.
    unfold bind at 1. rewrite index_lookup.
    destruct (lookup_lt_is_Some_2 mds i) as [md Hmd]; [lia|]. rewrite Hmd.
    unfold bind at 1. unfold lift at 1.
    assert (exists id, pointID (uuidNew E (uuidsDrawn w)) md = Ok id) as [id ->].
    { destruct (Hids 0%nat md) as [Hnil|[id Hid]]; [lia|by rewrite Nat.add_0_r|..].
      - eexists. by apply pointID_fresh.
      - eexists. by apply pointID_reused. }
    unfold bind at 1. rewrite index_lookup.
    destruct (lookup_lt_is_Some_2 texts i) as [text Htext]; [lia|]. rewrite Htext.
    apply IH; [lia|lia|].
    intros j md' Hj Hmd'. apply (Hids (S j)); [lia|].
    by replace (i + S j)%nat with (S i + j)%nat by lia.
Qed.

Lemma restUpsert_sends E s texts vectors mds coll w pts w1 :
  upsertLoop E s texts mds 0 vectors [] w = (Ok pts, w1) ->
  alwaysSends E ->
  requests (snd (restUpsert E s texts vectors mds coll w))
  = requests w ++ [upsertRequest s coll pts].
Proof.
  intros Hloop [Hm Hn]. pose proof Hloop as (Hreq & _)%upsertLoop_spec.
  unfold restUpsert, bind. rewrite Hloop. unfold doRequest.
  rewrite Hm, Hn, <- Hreq.
  destruct (httpDo E _ _) as [e|[status body]]; simpl; [done|].
  by destruct (bool_decide (status = StatusOK)).
Qed.

(** C7, as amended.  In a batch whose ["__point_id"] values are each nil
    (or absent) or a string, the loop of [restUpsert] gives a point the
    string found under ["__point_id"] as its ID, and every other point the
    UUID drawn for it in this call; those UUIDs differ from one another
    when the generator does not repeat itself; and these are the points
    [restUpsert] sends. *)
Theorem restUpsert_point_ids E s texts vectors mds coll w :
  uuidsDistinct E ->
  (length vectors <= length mds)%nat ->
  (length vectors <= length texts)%nat ->
  (forall i md, (i < length vectors)%nat -> mds !! i = Some md -> pointIDUsable md) ->
  exists pts w1,
    upsertLoop E s texts mds 0 vectors [] w = (Ok pts, w1)
    /\ length pts = length vectors
    /\ (forall i pt md,
          pts !! i = Some pt -> mds !! i = Some md ->
          (forall id, mapIndex md "__point_id" = AString id -> pID pt = id)
          /\ (mapIndex md "__point_id" = ANil ->
              pID pt = uuidNew E (uuidsDrawn w + i)%nat))
    /\ (forall i j pi pj mdi mdj,
          i <> j ->
          pts !! i = Some pi -> pts !! j = Some pj ->
          mds !! i = Some mdi -> mds !! j = Some mdj ->
          mapIndex mdi "__point_id" = ANil -> mapIndex mdj "__point_id" = ANil ->
          pID pi <> pID pj)
    /\ (alwaysSends E ->
        requests (snd (restUpsert E s texts vectors mds coll w))
        = requests w ++ [upsertRequest s coll pts]).
Proof.
  intros Hdistinct Hm Ht Hids.
  destruct (upsertLoop_total E s texts mds vectors 0 [] w) as (pts & w1 & Hloop);
    [done|done|by intros j md Hj Hmd; apply (Hids j)|].
  exists pts, w1. split; [done|].
  pose proof Hloop as (_ & _ & new & Hpts & Hlen & Hnew)%upsertLoop_spec.
  simpl in Hpts. subst new.
  assert (forall i pt md,
             pts !! i = Some pt -> mds !! i = Some md ->
             (forall id, mapIndex md "__point_id" = AString id -> pID pt = id)
             /\ (mapIndex md "__point_id" = ANil ->
                 pID pt = uuidNew E (uuidsDrawn w + i)%nat)) as Hid.
  { intros i pt md Hpt Hmd.
    destruct (Hnew i pt Hpt) as (vec & md' & text & _ & Hmd' & _ & Hid & _).
    simpl in Hmd'. rewrite Hmd in Hmd'. injection Hmd' as <-.
    split.
    - intros id Hv. rewrite (pointID_reused _ _ _ Hv) in Hid. by injection Hid.
    - intros Hv. rewrite (pointID_fresh _ _ Hv) in Hid. by injection Hid. }
  split; [done|]. split; [exact Hid|]. split.
  - intros i j pi pj mdi mdj Hne Hpi Hpj Hmi Hmj Hni Hnj Heq.
    destruct (Hid i pi mdi Hpi Hmi) as [_ Hi].
    destruct (Hid j pj mdj Hpj Hmj) as [_ Hj].
    rewrite (Hi Hni), (Hj Hnj) in Heq. apply Hdistinct in Heq. lia.
  - intros Hsend. by eapply restUpsert_sends.
Qed.

Lemma fixedEnv_uuidsDistinct answer : uuidsDistinct (fixedEnv answer).
Proof.
  intros i j. simpl. intros H. apply (inj pretty).
  by injection H.
Qed.

Lemma okEnv_alwaysSends : alwaysSends okEnv.
Proof. by split. Qed.

Lemma restUpsert_point_ids_witness :
  exists pts w1,
    upsertLoop okEnv exampleStore ["Tokyo"; "Paris"]
      [withID (AString "7d2a90c4"); country "France"] 0 [[]; []] [] newWorld
    = (Ok pts, w1)
    /\ map pID pts = ["7d2a90c4"; "uuid-1"]
    /\ requests (snd (restUpsert okEnv exampleStore ["Tokyo"; "Paris"] [[]; []]
                        [withID (AString "7d2a90c4"); country "France"] "cities"
                        newWorld))
       = [upsertRequest exampleStore "cities" pts].
Proof.
  destruct (restUpsert_point_ids okEnv exampleStore ["Tokyo"; "Paris"] [[]; []]
              [withID (AString "7d2a90c4"); country "France"] "cities" newWorld)
    as (pts & w1 & Hloop & Hlen & Hids & _ & Hsend).
  - apply fixedEnv_uuidsDistinct.
  - simpl. lia.
  - simpl. lia.
  - intros [|[|i]] md Hi Hmd; simpl in Hi;
      [injection Hmd as <-; right; by eexists|injection Hmd as <-; by left|lia].
  - exists pts, w1. split; [exact Hloop|]. split; [|exact (Hsend okEnv_alwaysSends)].
    destruct pts as [|p [|q [|r pts]]]; try discriminate Hlen.
    simpl. f_equal; [|f_equal].
    + apply (proj1 (Hids 0%nat p _ eq_refl eq_refl) "7d2a90c4"). reflexivity.
    + apply (proj2 (Hids 1%nat q _ eq_refl eq_refl)). reflexivity.
Defined.

(** C7 as stated fails: a value under ["__point_id"] that is not nil and
    not a string is not assigned as the ID; the unchecked assertion panics
    and nothing is sent. *)
Lemma restUpsert_point_ids_counterexample :
  mapIndex (withID (num 7 0)) "__point_id" = num 7 0
  /\ restUpsert okEnv exampleStore ["Tokyo"] [[]] [withID (num 7 0)] "cities" newWorld
     = (Panic InterfaceConversion, {| requests := []; uuidsDrawn := 1 |}).
Proof. split; vm_compute; reflexivity. Qed.

(** * Further properties of the package *)

(** ** The HTTP contract of the operations *)

Lemma doRequest_answered E payload url key method w status body :
  alwaysSends E ->
  answersAll E status body ->
  doRequest E payload url key method w
  = (Ok (body, status),
     recordRequest {| reqMethod := method; reqURL := url; reqApiKey := key;
                      reqBody := payload |} w).
Proof.
  intros [Hm Hn] Ha. unfold doRequest. by rewrite Hm, Hn, Ha.
Qed.

Lemma newAPIError_text task body text :
  readAll body = inr text -> newAPIError task body = APIError task text.
Proof. unfold newAPIError. by intros ->. Qed.

(** X1.  When the index answers with a status other than 200 and a
    readable body, every operation fails with [APIError] carrying the name
    of the operation and the text of the body; the message of that error
    is the two joined by a colon. *)
Theorem non_200_is_APIError E s coll status body text w :
  alwaysSends E ->
  answersAll E status body ->
  status <> StatusOK ->
  readAll body = inr text ->
  (forall filter,
      fst (restDeletePoints E s coll filter w) = Err (APIError "deleting points" text))
  /\ fst (restNewCollection E s coll w) = Err (APIError "creating collection" text)
  /\ (forall key,
      fst (restIndexMetadataKey E s coll key w)
      = Err (APIError "indexing metadata key" text))
  /\ (forall vector n t filter,
      fst (restQuery E s vector n coll t filter w)
      = Err (APIError "querying index" text))
  /\ (forall req,
      fst (restScrollPoints E s coll req w) = Err (APIError "scrolling points" text))
  /\ (forall texts vectors mds pts w1,
      upsertLoop E s texts mds 0 vectors [] w = (Ok pts, w1) ->
      fst (restUpsert E s texts vectors mds coll w)
      = Err (APIError "upserting vectors" text))
  /\ (forall task, errorText (APIError task text) = task +:+ ": " +:+ text).
Proof.
  intros Hs Ha Hst Hb.
  assert (bool_decide (status = StatusOK) = false) as Hd
    by by apply bool_decide_eq_false_2.
  repeat split; intros;
    unfold restDeletePoints, restNewCollection, restIndexMetadataKey, restQuery,
      restScrollPoints, restUpsert, bind;
    try rewrite H;
    rewrite (doRequest_answered _ _ _ _ _ _ _ _ Hs Ha); simpl;
    rewrite Hd; simpl; by rewrite (newAPIError_text _ _ _ Hb).
Qed.

Lemma refusingEnv_alwaysSends : alwaysSends refusingEnv.
Proof. by split. Qed.

Lemma non_200_is_APIError_witness :
  fst (restNewCollection refusingEnv exampleStore "cities" newWorld)
  = Err (APIError "creating collection" "internal error").
Proof.
  apply (non_200_is_APIError refusingEnv exampleStore "cities" 500 
           (errorBody "internal error") "internal error" newWorld).
  - apply refusingEnv_alwaysSends.
  - intros history req. reflexivity.
  - discriminate.
  - reflexivity.
Defined.

Lemma doRequest_unmarshalled E payload url key method w e :
  jsonMarshal E payload = Some e ->
  doRequest E payload url key method w = (Err e, w).
Proof. unfold doRequest. by intros ->. Qed.

Lemma doRequest_unreachable E payload url key method w e :
  alwaysSends E ->
  (forall history req, httpDo E history req = inl e) ->
  doRequest E payload url key method w
  = (Err e,
     recordRequest {| reqMethod := method; reqURL := url; reqApiKey := key;
                      reqBody := payload |} w).
Proof. intros [Hm Hn] Hd. unfold doRequest. by rewrite Hm, Hn, Hd. Qed.

(** X2.  An error of the HTTP primitive comes back from every operation as
    it is, not wrapped.  When the payload cannot be marshalled the world is
    left as it was, so nothing has been sent; when the transport fails the
    error is that of the transport. *)
Theorem transport_errors_unwrapped E s coll w e :
  ((forall payload, jsonMarshal E payload = Some e) ->
   (forall filter, restDeletePoints E s coll filter w = (Err e, w))
   /\ restNewCollection E s coll w = (Err e, w)
   /\ (forall key, restIndexMetadataKey E s coll key w = (Err e, w))
   /\ (forall vector n t filter, restQuery E s vector n coll t filter w = (Err e, w))
   /\ (forall req, restScrollPoints E s coll req w = (Err e, w))
   /\ (forall texts vectors mds pts w1,
         upsertLoop E s texts mds 0 vectors [] w = (Ok pts, w1) ->
         restUpsert E s texts vectors mds coll w = (Err e, w1)
         /\ requests w1 = requests w))
  /\ (alwaysSends E ->
      (forall history req, httpDo E history req = inl e) ->
      (forall filter, fst (restDeletePoints E s coll filter w) = Err e)
      /\ fst (restNewCollection E s coll w) = Err e
      /\ (forall key, fst (restIndexMetadataKey E s coll key w) = Err e)
      /\ (forall vector n t filter, fst (restQuery E s vector n coll t filter w) = Err e)
      /\ (forall req, fst (restScrollPoints E s coll req w) = Err e)
      /\ (forall texts vectors mds pts w1,
            upsertLoop E s texts mds 0 vectors [] w = (Ok pts, w1) ->
            fst (restUpsert E s texts vectors mds coll w) = Err e)).
Proof.
  split.
  - intros Hm.
    repeat split; intros;
      unfold restDeletePoints, restNewCollection, restIndexMetadataKey, restQuery,
        restScrollPoints, restUpsert, bind;
      try rewrite H;
      try (by rewrite (doRequest_unmarshalled _ _ _ _ _ _ _ (Hm _))).
    by apply upsertLoop_spec in H as [Hreq _].
  - intros Hs Hd.
    repeat split; intros;
      unfold restDeletePoints, restNewCollection, restIndexMetadataKey, restQuery,
        restScrollPoints, restUpsert, bind;
      try rewrite H;
      by rewrite (doRequest_unreachable _ _ _ _ _ _ _ Hs Hd).
Qed.

Lemma downEnv_alwaysSends : alwaysSends downEnv.
Proof. by split. Qed.

Lemma transport_errors_unwrapped_witness :
  fst (restScrollPoints downEnv exampleStore "cities" None newWorld)
  = Err (ForeignError "connection refused").
Proof.
  apply (proj2 (transport_errors_unwrapped downEnv exampleStore "cities" newWorld
                  (ForeignError "connection refused"))).
  - apply downEnv_alwaysSends.
  - intros history req. reflexivity.
Defined.

(** ** Bodies that are not what the operation expects *)

(** X3.  When the status is 200 and the body does not decode, [restQuery]
    and [restScrollPoints] return the error of the decoder as it is. *)
Theorem decode_errors_unwrapped E s coll status body err w :
  alwaysSends E ->
  answersAll E status body ->
  status = StatusOK ->
  (decodeQueries body = inl err ->
   forall vector n t filter,
     fst (restQuery E s vector n coll t filter w) = Err err)
  /\ (decodeScroll body = inl err ->
      forall req, fst (restScrollPoints E s coll req w) = Err err).
Proof.
  intros Hs Ha ->. split; intros Hb **;
    unfold restQuery, restScrollPoints, bind;
    rewrite (doRequest_answered _ _ _ _ _ _ _ _ Hs Ha); simpl;
    unfold queryDocuments, scrollDocuments; by rewrite Hb.
Qed.

Lemma okEnv_answersAll : answersAll okEnv StatusOK (errorBody "").
Proof. intros history req. reflexivity. Qed.

Lemma decode_errors_unwrapped_witness :
  fst (restQuery okEnv exampleStore [] 1 "cities" f32_zero ANil newWorld)
  = Err (ForeignError "invalid character").
Proof.
  apply (proj1 (decode_errors_unwrapped okEnv exampleStore "cities" StatusOK
                  (errorBody "") (ForeignError "invalid character") newWorld
                  okEnv_alwaysSends okEnv_answersAll eq_refl)).
  reflexivity.
Defined.

(** X4.  A scroll response with status 200 that decodes but carries no
    result makes [restScrollPoints] panic on the nil pointer. *)
Theorem restScrollPoints_without_result E s coll req w w' body response :
  scrollExchange E s coll req w = (Ok (body, StatusOK), w') ->
  decodeScroll body = inr response ->
  scResult response = None ->
  restScrollPoints E s coll req w = (Panic NilDereference, w').
Proof.
  intros Hx Hb Hr. rewrite (restScrollPoints_200 _ _ _ _ _ _ _ Hx).
  unfold scrollDocuments. by rewrite Hb, Hr.
Qed.

Lemma restScrollPoints_without_result_witness :
  restScrollPoints noResultEnv exampleStore "cities" None newWorld
  = (Panic NilDereference,
     {| requests := [scrollRequest exampleStore "cities" None]; uuidsDrawn := 0 |}).
Proof.
  apply (restScrollPoints_without_result noResultEnv exampleStore "cities" None
           newWorld _ _ _ eq_refl eq_refl eq_refl).
Defined.

(** ** Similarity search *)

(** X5.  A score threshold below 0 or above 1 makes [SimilaritySearch]
    fail with [ErrInvalidScoreThreshold] before the embedder is called and
    before anything is sent, whatever the store and its embedder are; a
    threshold that is neither is handed on unchanged. *)
Theorem SimilaritySearch_validates_threshold E s query n options w :
  let t := optScoreThreshold (getOptions options) in
  (f32_lt t f32_zero || f32_gt t f32_one = true ->
   SimilaritySearch E s query n options w = (Err ErrInvalidScoreThreshold, w))
  /\ (f32_lt t f32_zero || f32_gt t f32_one = false ->
      getScoreThreshold (getOptions options) = Ok t).
Proof.
  intros t. unfold SimilaritySearch, getScoreThreshold, bind, lift. fold t.
  split; by intros ->.
Qed.

Lemma SimilaritySearch_validates_threshold_witness :
  SimilaritySearch okEnv zeroStore "japan" 1 [WithScoreThreshold f32_two] newWorld
  = (Err ErrInvalidScoreThreshold, newWorld).
Proof.
  apply (SimilaritySearch_validates_threshold okEnv zeroStore "japan" 1
           [WithScoreThreshold f32_two] newWorld).
  reflexivity.
Defined.

Lemma getFilters_id opts : getFilters opts = optFilters opts.
Proof. unfold getFilters. by destruct (optFilters opts). Qed.

(** X6.  With a valid threshold, [SimilaritySearch] embeds the query with
    the per-call embedder if there is one and else with that of the store;
    an error of the embedder is returned and nothing is sent; otherwise
    exactly one request is sent: a POST to the search endpoint of the
    store's collection with the embedded vector, the number of documents as
    limit, the threshold and the filter of the options, asking for vectors
    and payloads. *)
Theorem SimilaritySearch_request E s query n options w :
  let opts := getOptions options in
  getScoreThreshold opts = Ok (optScoreThreshold opts) ->
  (forall e,
      callEmbedQuery (getEmbedder s opts) query = Err e ->
      SimilaritySearch E s query n options w = (Err e, w))
  /\ (forall vector,
      callEmbedQuery (getEmbedder s opts) query = Ok vector ->
      alwaysSends E ->
      requests (snd (SimilaritySearch E s query n options w))
      = requests w ++ [searchRequest s vector n (collectionName s)
                         (optScoreThreshold opts) (optFilters opts)]
        /\ uuidsDrawn (snd (SimilaritySearch E s query n options w)) = uuidsDrawn w)
  /\ (forall e, optEmbedder opts = Some e -> getEmbedder s opts = Some e)
  /\ (optEmbedder opts = None -> getEmbedder s opts = embedder s).
Proof.
  intros opts Ht. unfold SimilaritySearch, bind, lift. fold opts. rewrite Ht.
  split; [|split; [|split]].
  - by intros e ->.
  - intros vector -> [Hm Hn]. rewrite getFilters_id.
    unfold restQuery, bind, doRequest, lift. rewrite Hm, Hn.
    destruct (httpDo E _ _) as [e|[status body]]; simpl; [done|].
    by destruct (bool_decide (status = StatusOK)).
  - unfold getEmbedder. by intros e ->.
  - unfold getEmbedder. by intros ->.
Qed.

Lemma SimilaritySearch_request_witness :
  requests (snd (SimilaritySearch (searchEnv [tokyo]) exampleStore "japan" 1
                   [WithFilters brazilFilter; WithCallEmbedder singleEmbedder]
                   newWorld))
  = [searchRequest exampleStore [f32_half] 1 "cities" f32_zero brazilFilter].
Proof.
  apply (proj1 (proj2 (SimilaritySearch_request (searchEnv [tokyo]) exampleStore
                         "japan" 1
                         [WithFilters brazilFilter; WithCallEmbedder singleEmbedder]
                         newWorld eq_refl)) [f32_half] eq_refl).
  by split.
Defined.

(** ** Adding documents *)

Lemma upsertLoop_encodes E s docs vectors w pts w1 :
  upsertLoop E s (map PageContent docs) (map Metadata docs) 0 vectors [] w
  = (Ok pts, w1) ->
  length pts = length vectors
  /\ forall i pt, pts !! i = Some pt ->
       exists d vec, docs !! i = Some d /\ vectors !! i = Some vec
                     /\ pt = encode s (pID pt) d vec.
Proof.
  intros (_ & _ & new & Hpts & Hlen & Hnew)%upsertLoop_spec.
  simpl in Hpts. subst new. split; [done|].
  intros i pt Hpt.
  destruct (Hnew i pt Hpt) as (vec & md & text & Hv & Hmd & Htext & _ & Hshape).
  simpl in Hmd, Htext. rewrite list_lookup_fmap in Hmd. rewrite list_lookup_fmap in Htext.
  destruct (docs !! i) as [d|]; [|done].
  simpl in Hmd, Htext. injection Hmd as <-. injection Htext as <-.
  by exists d, vec.
Qed.

(** X7.  [AddDocuments] returns an error of the embedder as it is, with
    nothing sent.  When the embedder returns one vector per document and
    every ["__point_id"] is nil or a string, it builds one point per
    document, in order, holding the vector and the payload of that
    document, sends them in exactly one PUT to the points endpoint of the
    store's collection, and returns no error when the index answers 200. *)
Theorem AddDocuments_upserts E s docs options w :
  let emb := getEmbedder s (getOptions options) in
  (forall e,
      callEmbedDocuments emb (map PageContent docs) = Err e ->
      AddDocuments E s docs options w = (Err e, w))
  /\ (forall vectors,
      callEmbedDocuments emb (map PageContent docs) = Ok vectors ->
      length vectors = length docs ->
      Forall (fun d => pointIDUsable (Metadata d)) docs ->
      exists pts w1,
        upsertLoop E s (map PageContent docs) (map Metadata docs) 0 vectors [] w
        = (Ok pts, w1)
        /\ length pts = length docs
        /\ (forall i pt, pts !! i = Some pt ->
              exists d vec, docs !! i = Some d /\ vectors !! i = Some vec
                            /\ pt = encode s (pID pt) d vec)
        /\ (alwaysSends E ->
            requests (snd (AddDocuments E s docs options w))
            = requests w ++ [upsertRequest s (collectionName s) pts])
        /\ (alwaysSends E ->
            forall body, answersAll E StatusOK body ->
            fst (AddDocuments E s docs options w) = Ok tt)).
Proof.
  intros emb. unfold AddDocuments, bind, lift. fold emb. split.
  - by intros e ->.
  - intros vectors -> Hlen Hids.
    rewrite (bool_decide_eq_true_2 _ Hlen), andb_false_r.
    destruct (upsertLoop_total E s (map PageContent docs) (map Metadata docs)
                vectors 0 [] w) as (pts & w1 & Hloop).
    { rewrite length_map. simpl. lia. }
    { rewrite length_map. simpl. lia. }
    { intros j md _ Hmd. simpl in Hmd. rewrite list_lookup_fmap in Hmd.
      destruct (docs !! j) as [d|] eqn:Hd; [|done]. injection Hmd as <-.
      by apply (Forall_lookup_1 _ _ _ _ Hids Hd). }
    exists pts, w1. split; [done|].
    destruct (upsertLoop_encodes _ _ _ _ _ _ _ Hloop) as [Hl Hshape].
    split; [congruence|]. split; [done|]. split.
    + intros Hs. by eapply restUpsert_sends.
    + intros Hs body Ha. unfold restUpsert, bind. rewrite Hloop.
      by rewrite (doRequest_answered _ _ _ _ _ _ _ _ Hs Ha).
Qed.

Lemma AddDocuments_upserts_witness :
  exists pts w1,
    upsertLoop okEnv singleStore (map PageContent [tokyoDocument])
      (map Metadata [tokyoDocument]) 0 [[f32_half]] [] newWorld = (Ok pts, w1)
    /\ length pts = 1%nat
    /\ (forall i pt, pts !! i = Some pt ->
          exists d vec, [tokyoDocument] !! i = Some d /\ [[f32_half]] !! i = Some vec
                        /\ pt = encode singleStore (pID pt) d vec)
    /\ (alwaysSends okEnv ->
        requests (snd (AddDocuments okEnv singleStore [tokyoDocument] [] newWorld))
        = requests newWorld ++ [upsertRequest singleStore "cities" pts])
    /\ (alwaysSends okEnv ->
        forall body, answersAll okEnv StatusOK body ->
        fst (AddDocuments okEnv singleStore [tokyoDocument] [] newWorld) = Ok tt).
Proof.
  apply (proj2 (AddDocuments_upserts okEnv singleStore [tokyoDocument] [] newWorld)
           [[f32_half]]).
  - reflexivity.
  - reflexivity.
  - repeat constructor.
Defined.

(** ** What is written is what is read *)

Lemma decodeLoop_all {A} (decode : A -> outcome Document) (keep : A -> bool)
    (points : list A) (docs acc : list Document) :
  (forall p, keep p = true) ->
  Forall2 (fun p d => decode p = Ok d) points docs ->
  decodeLoop decode keep points acc = Ok (acc ++ docs).
Proof.
  intros Hk H. revert acc.
  induction H as [|p d points docs Hp _ IH]; intros acc; simpl.
  - by rewrite app_nil_r.
  - rewrite Hp, Hk, IH. by rewrite <- app_assoc.
Qed.

Lemma keeps_zero (x : float32) : keeps f32_zero x = true.
Proof. reflexivity. Qed.

Lemma encode_decodes s id d vec score version :
  contentKey s <> metadataKey s ->
  decodeScored s (asScored score version (encode s id d vec)) = Ok (scoredAs score d)
  /\ decodePoint s (encode s id d vec) = Ok (scoredAs f32_zero d).
Proof.
  intros Hne. unfold decodeScored, decodePoint, asScored, encode.
  cbn [spPayload pPayload spScore].
  by rewrite (encodePayload_content _ _ _ Hne), encodePayload_metadata.
Qed.

(** X8.  When the two keys of the store differ, the points [restUpsert]
    builds for a batch of documents, with the payloads they were built
    with, decode to the documents of the batch, in the same order: in the
    loop of an unfiltered search, with the score given to the points, and
    in the loop of a scroll. *)
Theorem upsert_then_read_back E s docs vectors w pts w1 score version :
  contentKey s <> metadataKey s ->
  length vectors = length docs ->
  upsertLoop E s (map PageContent docs) (map Metadata docs) 0 vectors [] w
  = (Ok pts, w1) ->
  queryLoop s f32_zero (map (asScored score version) pts) []
  = Ok (map (scoredAs score) docs)
  /\ scrollLoop s pts [] = Ok (map (scoredAs f32_zero) docs).
Proof.
  intros Hne Hlen Hloop.
  destruct (upsertLoop_encodes _ _ _ _ _ _ _ Hloop) as [Hl Hshape].
  assert (forall i pt d, pts !! i = Some pt -> docs !! i = Some d ->
            exists vec, pt = encode s (pID pt) d vec) as Hpt.
  { intros i pt d Hi Hd.
    destruct (Hshape i pt Hi) as (d' & vec & Hd' & _ & Heq).
    rewrite Hd in Hd'. injection Hd' as <-. by exists vec. }
  rewrite queryLoop_decodeLoop, scrollLoop_decodeLoop. split.
  - apply (decodeLoop_all _ _ _ _ []); [intros p; apply keeps_zero|].
    apply Forall2_fmap, Forall2_same_length_lookup_2; [congruence|].
    intros i pt d Hi Hd. destruct (Hpt i pt d Hi Hd) as (vec & ->).
    by apply encode_decodes.
  - apply (decodeLoop_all _ _ _ _ []); [done|].
    apply Forall2_fmap_r, Forall2_same_length_lookup_2; [congruence|].
    intros i pt d Hi Hd. destruct (Hpt i pt d Hi Hd) as (vec & ->).
    by apply encode_decodes.
Qed.

Lemma upsert_then_read_back_witness :
  queryLoop exampleStore f32_zero
    (map (asScored f32_half 3)
       (fst (match upsertLoop okEnv exampleStore
                     (map PageContent [tokyoDocument; parisDocument])
                     (map Metadata [tokyoDocument; parisDocument]) 0 [[]; []] []
                     newWorld with
             | (Ok pts, w1) => (pts, w1)
             | (_, w1) => ([], w1)
             end))) []
  = Ok (map (scoredAs f32_half) [tokyoDocument; parisDocument]).
Proof.
  eapply (upsert_then_read_back okEnv exampleStore [tokyoDocument; parisDocument]
            [[]; []] newWorld).
  - discriminate.
  - reflexivity.
  - vm_compute. reflexivity.
Defined.

(** ** The nil embedder *)

(** X9.  [NilEmbedder] returns one vector per text, each of 1536
    components, all the same constant; so the number of vectors it returns
    is always the number of documents. *)
Theorem NilEmbedder_vectors (texts : list string) (text : string) :
  exists vectors,
    EmbedDocuments NilEmbedder texts = Ok vectors
    /\ length vectors = length texts
    /\ Forall (fun vec => length vec = 1536%nat
                          /\ Forall (fun x => x = nilComponent) vec) vectors
    /\ EmbedQuery NilEmbedder text = Ok NewNilVector
    /\ length NewNilVector = 1536%nat.
Proof.
  exists (map (fun _ => NewNilVector) texts). simpl.
  assert (length NewNilVector = 1536%nat) as Hlen by apply length_replicate.
  split; [done|]. split; [apply length_map|]. split; [|by split].
  apply Forall_forall. intros vec Hin%list_elem_of_In%in_map_iff.
  destruct Hin as (_ & <- & _). split; [done|].
  apply Forall_forall. intros x Hx. unfold NewNilVector in Hx.
  by apply elem_of_replicate in Hx as [-> _].
Qed.

(** ** Construction *)

Lemma store_eta (o : Store) :
  mkStore (embedder o) (useCloud o) (apiKey o) (baseURL o) (collectionName o)
          (contentKey o) (metadataKey o) (indexKeys o) (collectionConfig o) = o.
Proof. by destruct o. Qed.

Lemma applyClientOptions_spec E opts s :
  let o := applyOptions opts initialStore in
  applyClientOptions E opts = (s, None)
  <-> (is_Some (embedder o)
       /\ (useCloud o = true -> effectiveApiKey E o <> "")
       /\ effectiveBaseURL E o <> ""
       /\ collectionName o <> ""
       /\ s = setBaseURL (setApiKey o (effectiveApiKey E o)) (effectiveBaseURL E o)).
Proof.
  intros o. unfold applyClientOptions, effectiveApiKey, effectiveBaseURL. fold o.
  destruct o as [emb cloud key url name ck mk ik cfg]. simpl.
  destruct emb as [e|]; [|split; [done|by intros [[? ?] _]]].
  unfold isEmpty.
  destruct (decide (key = "")) as [->|Hkey];
    [rewrite bool_decide_eq_true_2 by done|rewrite (bool_decide_eq_false_2 _ Hkey)];
    simpl.
  - destruct cloud; simpl.
    + destruct (decide (getenv E _qdrantKeyEnvVarName = "")) as [Hk|Hk];
        [rewrite (bool_decide_eq_true_2 _ Hk)|rewrite (bool_decide_eq_false_2 _ Hk)];
        simpl.
      { split; [done|]. intros (_ & H & _). by destruct H. }
      destruct (decide (url = "")) as [->|Hurl];
        [rewrite bool_decide_eq_true_2 by done
        |rewrite (bool_decide_eq_false_2 _ Hurl)]; simpl.
      * destruct (decide (getenv E _qdrantURLEnvVarName = "")) as [Hu|Hu];
          [rewrite (bool_decide_eq_true_2 _ Hu)|rewrite (bool_decide_eq_false_2 _ Hu)];
          simpl; [split; [done|by intros (_ & _ & H & _)]|].
        destruct (decide (name = "")) as [->|Hn];
          [rewrite bool_decide_eq_true_2 by done
          |rewrite (bool_decide_eq_false_2 _ Hn)]; simpl.
        -- split; [done|by intros (_ & _ & _ & H & _)].
        -- split; [intros [= <-]; by repeat split|by intros (_ & _ & _ & _ & ->)].
      * destruct (decide (name = "")) as [->|Hn];
          [rewrite bool_decide_eq_true_2 by done
          |rewrite (bool_decide_eq_false_2 _ Hn)]; simpl.
        -- split; [done|by intros (_ & _ & _ & H & _)].
        -- split; [intros [= <-]; by repeat split|by intros (_ & _ & _ & _ & ->)].
    + destruct (decide (url = "")) as [->|Hurl];
        [rewrite bool_decide_eq_true_2 by done
        |rewrite (bool_decide_eq_false_2 _ Hurl)]; simpl.
      * destruct (decide (getenv E _qdrantURLEnvVarName = "")) as [Hu|Hu];
          [rewrite (bool_decide_eq_true_2 _ Hu)|rewrite (bool_decide_eq_false_2 _ Hu)];
          simpl; [split; [done|by intros (_ & _ & H & _)]|].
        destruct (decide (name = "")) as [->|Hn];
          [rewrite bool_decide_eq_true_2 by done
          |rewrite (bool_decide_eq_false_2 _ Hn)]; simpl.
        -- split; [done|by intros (_ & _ & _ & H & _)].
        -- split; [intros [= <-]; by repeat split|by intros (_ & _ & _ & _ & ->)].
      * destruct (decide (name = "")) as [->|Hn];
          [rewrite bool_decide_eq_true_2 by done
          |rewrite (bool_decide_eq_false_2 _ Hn)]; simpl.
        -- split; [done|by intros (_ & _ & _ & H & _)].
        -- split; [intros [= <-]; by repeat split|by intros (_ & _ & _ & _ & ->)].
  - destruct (decide (url = "")) as [->|Hurl];
      [rewrite bool_decide_eq_true_2 by done
      |rewrite (bool_decide_eq_false_2 _ Hurl)]; simpl.
    + destruct (decide (getenv E _qdrantURLEnvVarName = "")) as [Hu|Hu];
        [rewrite (bool_decide_eq_true_2 _ Hu)|rewrite (bool_decide_eq_false_2 _ Hu)];
        simpl; [split; [done|by intros (_ & _ & H & _)]|].
      destruct (decide (name = "")) as [->|Hn];
        [rewrite bool_decide_eq_true_2 by done
        |rewrite (bool_decide_eq_false_2 _ Hn)]; simpl.
      * split; [done|by intros (_ & _ & _ & H & _)].
      * split; [intros [= <-]; by repeat split|by intros (_ & _ & _ & _ & ->)].
    + destruct (decide (name = "")) as [->|Hn];
        [rewrite bool_decide_eq_true_2 by done
        |rewrite (bool_decide_eq_false_2 _ Hn)]; simpl.
      * split; [done|by intros (_ & _ & _ & H & _)].
      * split; [intros [= <-]; by repeat split|by intros (_ & _ & _ & _ & ->)].
Qed.

(** X10.  [applyClientOptions] succeeds exactly when, after the options,
    there is an embedder, a base URL in the options or in the environment,
    a collection name, and (for the cloud) an API key in the options or in
    the environment; the store it returns is the configured one with the
    API key and the base URL so settled. *)
Theorem applyClientOptions_ok E opts s :
  let o := applyOptions opts initialStore in
  applyClientOptions E opts = (s, None)
  <-> (is_Some (embedder o)
       /\ (useCloud o = true -> effectiveApiKey E o <> "")
       /\ effectiveBaseURL E o <> ""
       /\ collectionName o <> ""
       /\ s = setBaseURL (setApiKey o (effectiveApiKey E o)) (effectiveBaseURL E o)).
Proof. apply applyClientOptions_spec. Qed.

Lemma applyClientOptions_failure E opts s err :
  applyClientOptions E opts = (s, Some err) ->
  s = zeroStore /\ errors_Is err ErrInvalidOptions = true.
Proof.
  unfold applyClientOptions. repeat case_match; intros [= <- <-]; simplify_eq;
    (split; [done|apply errors_Is_wrapped]).
Qed.

Lemma New_returns_store E opts w s :
  applyClientOptions E opts = (s, None) -> fst (New E opts w) = Ok (s, None).
Proof.
  intros Happly. unfold New. rewrite Happly. unfold bind.
  destruct (discard_exchange E
              (CollectionBody (<["name" := AString (collectionName s)]>
                                 (default ∅ (collectionConfig s))))
              (getEndpoint (baseURL s) (collectionName s) "") (apiKey s)
              MethodPut "creating collection" w) as [Hok _].
  fold (restNewCollection E s (collectionName s)) in Hok.
  destruct (discard (restNewCollection E s (collectionName s)) w)
    as [[[]|e|p] w1] eqn:Hd; simpl in Hok; try done.
  destruct (indexAll_discards E s (indexKeys s) w1) as [Hiok _].
  by destruct (indexAll E s (indexKeys s) w1) as [[[]|e|p] w2] eqn:Hi.
Qed.

(** X11.  Whatever the options and the environment, [New] ends in one of
    two ways: it returns, with no error, a store that has an embedder, a
    base URL and a collection name that are not empty, and an API key when
    it is for the cloud; or it returns the zero store and an error that
    wraps [ErrInvalidOptions], having sent nothing. *)
Theorem New_outcome E opts w :
  (exists s,
      fst (New E opts w) = Ok (s, None)
      /\ is_Some (embedder s)
      /\ baseURL s <> ""
      /\ collectionName s <> ""
      /\ (useCloud s = true -> apiKey s <> ""))
  \/ (exists err,
      New E opts w = (Ok (zeroStore, Some err), w)
      /\ errors_Is err ErrInvalidOptions = true).
Proof.
  destruct (applyClientOptions E opts) as [s [err|]] eqn:Happly.
  - right. exists err.
    destruct (applyClientOptions_failure _ _ _ _ Happly) as [-> His].
    unfold New. by rewrite Happly.
  - left. exists s. split; [by apply New_returns_store|].
    apply applyClientOptions_spec in Happly as (Hemb & Hkey & Hurl & Hname & ->).
    by repeat split.
Qed.

(** ** The keys of the payload *)

Lemma applyOptions_snoc opts opt o :
  applyOptions (opts ++ [opt]) o = applyOption opt (applyOptions opts o).
Proof. unfold applyOptions. by rewrite fold_left_app. Qed.

(** X12.  The content key and the metadata key of a store are those of the
    last option that sets them, and stay as they were (["page_content"] and
    ["metadata"] when construction starts) if no option does. *)
Theorem payload_keys_of_options (opts : list Option) (o : Store) :
  (forallb (fun opt => negb (setsContentKey opt)) opts = true ->
   contentKey (applyOptions opts o) = contentKey o)
  /\ (forallb (fun opt => negb (setsMetadataKey opt)) opts = true ->
      metadataKey (applyOptions opts o) = metadataKey o)
  /\ (forall before after k,
        opts = before ++ WithContentKey k :: after ->
        forallb (fun opt => negb (setsContentKey opt)) after = true ->
        contentKey (applyOptions opts o) = k)
  /\ (forall before after k,
        opts = before ++ WithMetadataKey k :: after ->
        forallb (fun opt => negb (setsMetadataKey opt)) after = true ->
        metadataKey (applyOptions opts o) = k)
  /\ contentKey initialStore = "page_content"
  /\ metadataKey initialStore = "metadata".
Proof.
  assert (forall opts o,
             forallb (fun opt => negb (setsContentKey opt)) opts = true ->
             contentKey (applyOptions opts o) = contentKey o) as Hc.
  { clear. induction opts as [|opt opts IH]; intros o; simpl; [done|].
    intros [Hopt Hrest]%andb_true_iff. unfold applyOptions in *. simpl.
    rewrite (IH _ Hrest). by destruct opt. }
  assert (forall opts o,
             forallb (fun opt => negb (setsMetadataKey opt)) opts = true ->
             metadataKey (applyOptions opts o) = metadataKey o) as Hm.
  { clear. induction opts as [|opt opts IH]; intros o; simpl; [done|].
    intros [Hopt Hrest]%andb_true_iff. unfold applyOptions in *. simpl.
    rewrite (IH _ Hrest). by destruct opt. }
  split; [apply Hc|]. split; [apply Hm|]. split; [|split; [|done]].
  - intros before after k -> Hafter. unfold applyOptions.
    rewrite fold_left_app. simpl. by rewrite (Hc after _ Hafter).
  - intros before after k -> Hafter. unfold applyOptions.
    rewrite fold_left_app. simpl. by rewrite (Hm after _ Hafter).
Qed.

(** ** The creation of the collection *)

(** X13.  The body [restNewCollection] sends is the configuration of the
    store with the name of the collection under ["name"]: a ["name"] of the
    configuration is overridden, every other key is sent as it is, and a
    nil configuration gives the name alone.  It is sent in one PUT to the
    endpoint of the collection. *)
Theorem restNewCollection_config E s coll w :
  alwaysSends E ->
  exists config,
    requests (snd (restNewCollection E s coll w))
    = requests w ++ [ {| reqMethod := MethodPut;
                         reqURL := getEndpoint (baseURL s) coll "";
                         reqApiKey := apiKey s;
                         reqBody := CollectionBody config |} ]
    /\ config !! "name" = Some (AString coll)
    /\ (forall k, k <> "name" -> config !! k = default ∅ (collectionConfig s) !! k)
    /\ (collectionConfig s = None -> config = {[ "name" := AString coll ]}).
Proof.
  intros [Hm Hn].
  exists (<["name" := AString coll]> (default ∅ (collectionConfig s))).
  split; [|split; [|split]].
  - unfold restNewCollection, bind, doRequest. rewrite Hm, Hn.
    destruct (httpDo E _ _) as [e|[status body]]; simpl; [done|].
    by destruct (bool_decide (status = StatusOK)).
  - apply lookup_insert_eq.
  - intros k Hk. by rewrite lookup_insert_ne.
  - by intros ->.
Qed.

Lemma restNewCollection_config_witness :
  exists config,
    requests (snd (restNewCollection okEnv exampleStore "cities" newWorld))
    = requests newWorld ++ [ {| reqMethod := MethodPut;
                                reqURL := getEndpoint (baseURL exampleStore) "cities" "";
                                reqApiKey := apiKey exampleStore;
                                reqBody := CollectionBody config |} ]
    /\ config !! "name" = Some (AString "cities")
    /\ (forall k, k <> "name" ->
          config !! k = default ∅ (collectionConfig exampleStore) !! k)
    /\ (collectionConfig exampleStore = None ->
        config = {[ "name" := AString "cities" ]}).
Proof.
  apply (restNewCollection_config okEnv exampleStore "cities" newWorld).
  apply okEnv_alwaysSends.
Defined.

(** ** Endpoints *)

Lemma append_empty (x : string) : x +:+ "" = x.
Proof.
  induction x as [|c x IH]; [done|].
  change (String c x +:+ "") with (String c (x +:+ "")). by rewrite IH.
Qed.

Lemma prefix_cons (c : ascii) (rest : string) :
  String.prefix "/" (String c rest) = if Ascii.ascii_dec "/" c then true else false.
Proof.
  change (String.prefix "/" (String c rest))
    with (if Ascii.ascii_dec "/" c then String.prefix "" rest else false).
  destruct (Ascii.ascii_dec "/" c); [by destruct rest|done].
Qed.

Lemma trimSlash_cons (c : ascii) (rest : string) :
  FlatScheme.trimSlash (String c rest)
  = if Ascii.ascii_dec "/" c then rest else String c rest.
Proof.
  destruct (Ascii.ascii_dec "/" c) as [<-|Hne]; [reflexivity|].
  destruct c as [[] [] [] [] [] [] [] []]; try reflexivity. by destruct Hne.
Qed.

Lemma getEndpoint_cons (base coll : string) (c : ascii) (rest : string) :
  getEndpoint base coll (String c rest)
  = base +:+ "/collections/" +:+ coll
    +:+ (if Ascii.ascii_dec "/" c then String c rest else String "/" (String c rest)).
Proof.
  unfold getEndpoint, isEmpty. rewrite bool_decide_eq_false_2 by done.
  rewrite prefix_cons. by destruct (Ascii.ascii_dec "/" c).
Qed.

(** X14.  The endpoint of the empty path is the URL of the collection
    itself; a path is given its leading slash when it lacks one; and for
    every path that is not empty the two generations of [getEndpoint]
    build the same URL, the earlier one adding a slash after the
    collection for the empty path. *)
Theorem getEndpoint_paths (base coll path : string) :
  getEndpoint base coll "" = base +:+ "/collections/" +:+ coll
  /\ (path <> "" -> String.prefix "/" path = false ->
      getEndpoint base coll path = getEndpoint base coll ("/" +:+ path))
  /\ (path <> "" ->
      FlatScheme.getEndpoint base coll path = getEndpoint base coll path)
  /\ FlatScheme.getEndpoint base coll ""
     = base +:+ "/collections/" +:+ coll +:+ "/".
Proof.
  split; [|split; [|split]].
  - unfold getEndpoint, isEmpty. rewrite bool_decide_eq_true_2 by done.
    cbn [negb andb]. by rewrite append_empty.
  - intros Hne Hp. destruct path as [|c rest]; [done|].
    change ("/" +:+ String c rest) with (String "/" (String c rest)).
    rewrite !getEndpoint_cons. rewrite prefix_cons in Hp.
    destruct (Ascii.ascii_dec "/" c); [done|].
    by destruct (Ascii.ascii_dec "/" "/").
  - intros Hne. destruct path as [|c rest]; [done|].
    rewrite getEndpoint_cons. unfold FlatScheme.getEndpoint. rewrite trimSlash_cons.
    by destruct (Ascii.ascii_dec "/" c) as [<-|].
  - reflexivity.
Qed.

(** ** The earlier generation *)

(** X15.  In the earlier generation [AddDocuments] returns an error of the
    embedder as it is, and fails with [ErrEmbedderWrongNumberVectors]
    whenever the number of vectors is not the number of documents, whatever
    the embedder of the store is; in both cases nothing is sent. *)
Theorem flat_AddDocuments_vector_count E s docs options w :
  (forall e,
      callEmbedDocuments (FlatScheme.embedder s) (map PageContent docs) = Err e ->
      FlatOps.AddDocuments E s docs options w = (Err e, w))
  /\ (forall vectors,
      callEmbedDocuments (FlatScheme.embedder s) (map PageContent docs) = Ok vectors ->
      length vectors <> length docs ->
      FlatOps.AddDocuments E s docs options w = (Err ErrEmbedderWrongNumberVectors, w)).
Proof.
  unfold FlatOps.AddDocuments, bind, lift. split.
  - by intros e ->.
  - intros vectors -> Hlen. by rewrite bool_decide_eq_false_2.
Qed.

Lemma flat_upsertLoop_spec E mds vectors :
  forall i v w,
    (i + length vectors <= length mds)%nat ->
    exists new,
      FlatOps.upsertLoop E mds i vectors v w
      = (Ok (v ++ new),
         {| requests := requests w;
            uuidsDrawn := (uuidsDrawn w + length vectors)%nat |})
      /\ length new = length vectors
      /\ forall j vec, vectors !! j = Some vec ->
           exists md, mds !! (i + j)%nat = Some md
                      /\ new !! j = Some {| pVector := vec; pPayload := md;
                                            pID := uuidNew E (uuidsDrawn w + j)%nat |}.
Proof.
  induction vectors as [|vec rest IH]; intros i v w Hlen; simpl in *.
  - exists []. rewrite app_nil_r, Nat.add_0_r. destruct w. repeat split.
    intros j vec Hj. by rewrite lookup_nil in Hj.
  - unfold bind at 1. rewrite index_lookup.
    destruct (lookup_lt_is_Some_2 mds i) as [md Hmd]; [lia|]. rewrite Hmd.
    unfold bind at 1. unfold uuidNewString at 1.
    destruct (IH (S i)
                (v ++ [ {| pVector := vec; pPayload := md;
                           pID := uuidNew E (uuidsDrawn w) |} ])
                {| requests := requests w; uuidsDrawn := S (uuidsDrawn w) |})
      as (new & Hrun & Hl & Hnew); [lia|].
    rewrite Hrun. simpl.
    exists ({| pVector := vec; pPayload := md; pID := uuidNew E (uuidsDrawn w) |} :: new).
    rewrite <- app_assoc. split; [do 2 f_equal; f_equal; lia|].
    split; [simpl; lia|].
    intros [|j] vec' Hj; simpl in Hj.
    + injection Hj as <-. exists md. by rewrite !Nat.add_0_r.
    + destruct (Hnew j vec' Hj) as (md' & Hmd' & Hpt). exists md'. simpl in *.
      replace (i + S j)%nat with (S (i + j)) by lia.
      replace (uuidsDrawn w + S j)%nat with (S (uuidsDrawn w + j)) by lia.
      by split.
Qed.

(** X16.  In the earlier generation, when the embedder returns one vector
    per document, [AddDocuments] does not panic: it builds one point per
    document, in order, whose payload is the metadata with the text under
    the text key and whose ID is the UUID drawn for it, whatever the
    metadata hold; the IDs differ from one another when the generator does
    not repeat itself; and the points are sent in one PUT. *)
Theorem flat_AddDocuments_upserts E s docs options w vectors :
  callEmbedDocuments (FlatScheme.embedder s) (map PageContent docs) = Ok vectors ->
  length vectors = length docs ->
  exists pts,
    length pts = length docs
    /\ (forall i d vec,
          docs !! i = Some d -> vectors !! i = Some vec ->
          pts !! i = Some {| pVector := vec;
                             pPayload := FlatScheme.encodePayload s (PageContent d)
                                           (Metadata d);
                             pID := uuidNew E (uuidsDrawn w + i)%nat |})
    /\ (uuidsDistinct E -> NoDup (map pID pts))
    /\ (forall p, fst (FlatOps.AddDocuments E s docs options w) <> Panic p)
    /\ (alwaysSends E ->
        requests (snd (FlatOps.AddDocuments E s docs options w))
        = requests w ++ [FlatOps.upsertRequest s (FlatScheme.collectionName s) pts]).
Proof.
  intros Hcall Hlen.
  set (mds := map (fun doc => FlatScheme.encodePayload s (PageContent doc)
                                (Metadata doc)) docs).
  destruct (flat_upsertLoop_spec E mds vectors 0 [] w) as (pts & Hrun & Hl & Hpts).
  { unfold mds. rewrite length_map. simpl. lia. }
  simpl in Hrun. exists pts.
  assert (forall i d vec,
             docs !! i = Some d -> vectors !! i = Some vec ->
             pts !! i = Some {| pVector := vec;
                                pPayload := FlatScheme.encodePayload s (PageContent d)
                                              (Metadata d);
                                pID := uuidNew E (uuidsDrawn w + i)%nat |}) as Hshape.
  { intros i d vec Hd Hv. destruct (Hpts i vec Hv) as (md & Hmd & Hpt).
    simpl in Hmd. unfold mds in Hmd. rewrite list_lookup_fmap, Hd in Hmd.
    by injection Hmd as <-. }
  assert (forall run : outcome unit * World,
             run = FlatOps.AddDocuments E s docs options w ->
             (forall p, fst run <> Panic p)
             /\ (alwaysSends E ->
                 requests (snd run)
                 = requests w
                   ++ [FlatOps.upsertRequest s (FlatScheme.collectionName s) pts]))
    as Hrunning.
  { intros run ->. unfold FlatOps.AddDocuments, bind, lift. rewrite Hcall.
    rewrite (bool_decide_eq_true_2 _ Hlen). change (negb true) with false.
    unfold FlatOps.restUpsert, bind. fold mds. cbv beta iota. rewrite Hrun.
    unfold doRequest. split.
    - intros p. destruct (jsonMarshal E _); [done|].
      destruct (newRequest E _ _); [done|].
      destruct (httpDo E _ _) as [e|[status body]]; simpl; [done|].
      by destruct (bool_decide (status = StatusOK)).
    - intros [Hm Hn]. rewrite Hm, Hn.
      destruct (httpDo E _ _) as [e|[status body]]; simpl; [done|].
      by destruct (bool_decide (status = StatusOK)). }
  split; [congruence|]. split; [done|]. split; [|by apply Hrunning].
  intros Hdistinct. apply NoDup_alt. intros i j id Hi Hj.
  rewrite list_lookup_fmap in Hi. rewrite list_lookup_fmap in Hj.
  destruct (pts !! i) as [pi|] eqn:Hpi; [|done].
  destruct (pts !! j) as [pj|] eqn:Hpj; [|done].
  simpl in Hi, Hj.
  destruct (lookup_lt_is_Some_2 vectors i) as [vi Hvi];
    [rewrite <- Hl; by eapply lookup_lt_Some|].
  destruct (lookup_lt_is_Some_2 vectors j) as [vj Hvj];
    [rewrite <- Hl; by eapply lookup_lt_Some|].
  destruct (Hpts i vi Hvi) as (mi & _ & Hpi').
  destruct (Hpts j vj Hvj) as (mj & _ & Hpj').
  rewrite Hpi in Hpi'. rewrite Hpj in Hpj'.
  injection Hpi' as ->. injection Hpj' as ->. simpl in Hi, Hj.
  injection Hi as <-. injection Hj as Hj. apply Hdistinct in Hj. lia.
Qed.

Lemma flat_AddDocuments_upserts_witness :
  exists pts,
    length pts = length [tokyoDocument]
    /\ (forall i d vec,
          [tokyoDocument] !! i = Some d -> [[f32_half]] !! i = Some vec ->
          pts !! i = Some {| pVector := vec;
                             pPayload := FlatScheme.encodePayload flatSingleStore
                                           (PageContent d) (Metadata d);
                             pID := uuidNew okEnv (uuidsDrawn newWorld + i)%nat |})
    /\ (uuidsDistinct okEnv -> NoDup (map pID pts))
    /\ (forall p,
          fst (FlatOps.AddDocuments okEnv flatSingleStore [tokyoDocument] [] newWorld)
          <> Panic p)
    /\ (alwaysSends okEnv ->
        requests (snd (FlatOps.AddDocuments okEnv flatSingleStore [tokyoDocument] []
                         newWorld))
        = requests newWorld
          ++ [FlatOps.upsertRequest flatSingleStore
                (FlatScheme.collectionName flatSingleStore) pts]).
Proof.
  apply (flat_AddDocuments_upserts okEnv flatSingleStore [tokyoDocument] [] newWorld
           [[f32_half]]).
  - reflexivity.
  - reflexivity.
Defined.

(** X17.  In the earlier generation the payload [AddDocuments] builds for
    a document decodes, as built, to the text of the document as content
    and, as metadata, to the metadata of the document without the text key
    (an empty mapping for nil metadata): metadata that do not use the text
    key come back as they were, and an entry under the text key is lost. *)
Theorem flat_read_back (s : FlatScheme.Store) (text : string) (md : gomap)
    (sp : scoredPoint) :
  spPayload sp = FlatScheme.encodePayload s text md ->
  FlatScheme.decodeScored s sp
  = Ok {| PageContent := text;
          Metadata := Some (delete (FlatScheme.textKey s) (default ∅ md));
          Score := spScore sp |}
  /\ (forall g, md = Some g ->
        g !! FlatScheme.textKey s = None ->
        FlatScheme.decodeScored s sp
        = Ok {| PageContent := text; Metadata := Some g; Score := spScore sp |})
  /\ (forall d, FlatScheme.decodeScored s sp = Ok d ->
        mapIndex (Metadata d) (FlatScheme.textKey s) = ANil).
Proof.
  intros Hp.
  assert (FlatScheme.decodeScored s sp
          = Ok {| PageContent := text;
                  Metadata := Some (delete (FlatScheme.textKey s) (default ∅ md));
                  Score := spScore sp |}) as Hdec.
  { unfold FlatScheme.decodeScored. rewrite Hp.
    unfold FlatScheme.encodePayload, mapIndex, FlatScheme.mapDelete.
    rewrite lookup_insert_eq. simpl. by rewrite delete_insert_eq. }
  split; [done|]. split.
  - intros g -> Hfree. rewrite Hdec. do 3 f_equal. simpl. by apply delete_id.
  - intros d. rewrite Hdec. intros [= <-]. simpl. by rewrite lookup_delete_eq.
Qed.

Lemma flat_read_back_witness :
  FlatScheme.decodeScored exampleFlatStore
    (scored f32_half
       (FlatScheme.encodePayload exampleFlatStore "Tokyo" (Metadata shadowedDocument)))
  = Ok {| PageContent := "Tokyo";
          Metadata := Some (delete "text" (default ∅ (Metadata shadowedDocument)));
          Score := f32_half |}.
Proof.
  exact (proj1 (flat_read_back exampleFlatStore "Tokyo" (Metadata shadowedDocument)
                  (scored f32_half
                     (FlatScheme.encodePayload exampleFlatStore "Tokyo"
                        (Metadata shadowedDocument)))
                  eq_refl)).
Defined.

Example flat_read_back_loses_caption :
  FlatScheme.decodeScored exampleFlatStore
    (scored f32_half
       (FlatScheme.encodePayload exampleFlatStore "Tokyo" (Metadata shadowedDocument)))
  = Ok {| PageContent := "Tokyo"; Metadata := country "Japan"; Score := f32_half |}.
Proof. vm_compute. reflexivity. Qed.

(** ** The retriever *)

(** X18.  [GetRelevantDocuments] returns what the [SimilaritySearch] of its
    store returns for the query, with the number of documents and the
    options the retriever was made with, and leaves the world as that call
    leaves it.  A handler is told of the start before the search, and of
    the end, with the documents, only when the search returned without
    error; [ToRetriever] gives a retriever without handler, which tells
    nothing. *)
Theorem GetRelevantDocuments_search (store : VectorStore) (handler : bool) (n : Z)
    (options : list CallOption) (query : string) (w : World) :
  let r := {| hasHandler := handler; v := Some store; numDocs := n;
              options := options |} in
  let run := vsSimilaritySearch store query n options w in
  fst (GetRelevantDocuments r query w) = run
  /\ (handler = true ->
      snd (GetRelevantDocuments r query w)
      = HandleRetrieverStart query ::
        match fst run with
        | Ok docs => [HandleRetrieverEnd query docs]
        | _ => []
        end)
  /\ (handler = false -> snd (GetRelevantDocuments r query w) = [])
  /\ ToRetriever (Some store) n options
     = {| hasHandler := false; v := Some store; numDocs := n; options := options |}.
Proof.
  intros r run. unfold GetRelevantDocuments. simpl. fold run.
  destruct run as [[docs|e|p] w']; simpl; repeat split; by intros ->.
Qed.

Example retriever_over_empty_index :
  GetRelevantDocuments
    {| hasHandler := true; v := Some (asVectorStore (searchEnv []) exampleStore);
       numDocs := 1; options := [] |} "japan" newWorld
  = (Err ErrEmptyResponse,
     {| requests := [searchRequest exampleStore NewNilVector 1 "cities" f32_zero ANil];
        uuidsDrawn := 0 |},
     [HandleRetrieverStart "japan"]).
Proof. vm_compute. reflexivity. Qed.

(** ** The requests of the operations *)

(** X20.  When the environment lets requests through, a delete, the
    indexing of a key, a search and a scroll each send exactly one request,
    whatever the index answers: a POST to [/points/delete] with the filter,
    a PUT to [/index] naming the key as a keyword field, a POST to
    [/points/search], a POST to [/points/scroll] with the request given;
    each carries the API key of the store, and none draws a UUID. *)
Theorem operations_send_one_request E s coll w :
  alwaysSends E ->
  (forall filter,
      snd (restDeletePoints E s coll filter w)
      = recordRequest (deleteRequest s coll filter) w)
  /\ (forall key,
      snd (restIndexMetadataKey E s coll key w)
      = recordRequest {| reqMethod := MethodPut;
                         reqURL := getEndpoint (baseURL s) coll "/index";
                         reqApiKey := apiKey s;
                         reqBody := IndexBody {[ "field_name" := key;
                                                 "field_schema" := "keyword" ]} |} w)
  /\ (forall vector n t filter,
      snd (restQuery E s vector n coll t filter w)
      = recordRequest (searchRequest s vector n coll t filter) w)
  /\ (forall req,
      snd (restScrollPoints E s coll req w)
      = recordRequest (scrollRequest s coll req) w).
Proof.
  intros [Hm Hn].
  repeat split; intros;
    unfold restDeletePoints, restIndexMetadataKey, restQuery, restScrollPoints,
      bind, doRequest, lift;
    rewrite Hm, Hn;
    (destruct (httpDo E _ _) as [e|[status body]]; simpl; [done|]);
    by destruct (bool_decide (status = StatusOK)).
Qed.

Lemma operations_send_one_request_witness :
  snd (restDeletePoints refusingEnv exampleStore "cities" brazilFilter newWorld)
  = recordRequest (deleteRequest exampleStore "cities" brazilFilter) newWorld.
Proof.
  apply (operations_send_one_request refusingEnv exampleStore "cities" newWorld).
  apply refusingEnv_alwaysSends.
Defined.

Lemma payload_keys_of_options_witness :
  contentKey (applyOptions [WithContentKey "body"; WithBaseURL "http://localhost:6333";
                            WithContentKey "text"; WithUseCloud false] initialStore)
  = "text"
  /\ metadataKey (applyOptions [WithContentKey "body"; WithUseCloud false] initialStore)
     = "metadata".
Proof.
  destruct (payload_keys_of_options
              [WithContentKey "body"; WithBaseURL "http://localhost:6333";
               WithContentKey "text"; WithUseCloud false] initialStore)
    as (_ & _ & Hlast & _).
  destruct (payload_keys_of_options [WithContentKey "body"; WithUseCloud false]
              initialStore) as (_ & Hkeep & _).
  split.
  - apply (Hlast [WithContentKey "body"; WithBaseURL "http://localhost:6333"]
             [WithUseCloud false] "text"); reflexivity.
  - apply Hkeep. reflexivity.
Defined.

Lemma flat_AddDocuments_vector_count_witness :
  FlatOps.AddDocuments okEnv flatSingleStore [tokyoDocument; parisDocument] [] newWorld
  = (Err ErrEmbedderWrongNumberVectors, newWorld).
Proof.
  apply (proj2 (flat_AddDocuments_vector_count okEnv flatSingleStore
                  [tokyoDocument; parisDocument] [] newWorld) [[f32_half]]).
  - reflexivity.
  - simpl. lia.
Defined.
